(** * Iterable MCP server on Cloudflare Workers: permission filter,
      credential resolution and the fetch-based API client

    A shallow embedding of three source files of the repository:

    - [src/tools/filter.ts]: the three capability sets and the two
      evaluators [isToolAllowed] and [getBlockedReason];
    - [src/index.ts]: the worker entry point [fetch], which resolves the
      API key and routes the request, and the agent [IterableMcpAgent]
      with [getClient], [init] and the handlers of its tools;
    - [src/client/iterable.ts]: [IterableClient.request] and the
      endpoints built on it.

    Conventions.  A JavaScript [Set<string>] is a [gset string]; a
    JavaScript object used as a record of query parameters is the list of
    its [Object.entries]; an object produced by [JSON.parse] is a
    [gmap string jsvalue].  A string is the Rocq [string] of the bytes of
    its UTF-8 encoding; a surrogate code unit that is not half of a pair,
    which UTF-8 leaves out, is written as the three bytes the same scheme
    gives it (ED, then A0 to BF, then 80 to BF), and no other character
    has such bytes.  A function that may throw returns a [completion]:
    either the value it returns or the value it throws. *)

From Stdlib Require Import ZArith Ascii String List Bool Lia DecimalString.
From Stdlib Require DecimalPos DecimalFacts.
From stdpp Require Import gmap strings list fin_maps.
Import ListNotations.
Open Scope string_scope.
Open Scope list_scope.

(** ** Configuration parsed from the environment ([src/types/env.ts]) *)

Record McpServerConfig := {
  allowUserPii : bool;
  allowWrites : bool;
  allowSends : bool;
}.

(** ** The tool filter ([src/tools/filter.ts]) *)

Module Filter.

(** [Set.prototype.has]. *)
Definition has (s : gset string) (x : string) : bool := bool_decide (x ∈ s).

(** Tools that don't expose user PII. *)
Definition NON_PII_TOOLS : gset string := list_to_set [
  "abort_campaign";
  "activate_triggered_campaign";
  "archive_campaigns";
  "bulk_delete_catalog_items";
  "cancel_campaign";
  "create_campaign";
  "create_catalog";
  "create_list";
  "create_snippet";
  "deactivate_triggered_campaign";
  "delete_catalog";
  "delete_catalog_item";
  "delete_list";
  "delete_snippet";
  "delete_templates";
  "get_campaign";
  "get_campaign_metrics";
  "get_campaigns";
  "get_catalog_field_mappings";
  "get_catalog_item";
  "get_catalog_items";
  "get_catalogs";
  "get_channels";
  "get_child_campaigns";
  "get_email_template";
  "get_experiment_metrics";
  "get_inapp_template";
  "get_journeys";
  "get_list_size";
  "get_lists";
  "get_message_types";
  "get_push_template";
  "get_sms_template";
  "get_snippet";
  "get_snippets";
  "get_template_by_client_id";
  "get_templates";
  "get_user_fields";
  "get_webhooks";
  "partial_update_catalog_item";
  "preview_email_template";
  "preview_inapp_template";
  "replace_catalog_item";
  "schedule_campaign";
  "send_campaign";
  "trigger_campaign";
  "update_catalog_field_mappings";
  "update_catalog_items";
  "update_email_template";
  "update_inapp_template";
  "update_push_template";
  "update_sms_template";
  "update_snippet";
  "update_webhook";
  "upsert_email_template";
  "upsert_inapp_template";
  "upsert_push_template";
  "upsert_sms_template"
].

(** Tools that only read data (no modifications). *)
Definition READ_ONLY_TOOLS : gset string := list_to_set [
  "get_campaign";
  "get_campaign_metrics";
  "get_campaigns";
  "get_catalog_field_mappings";
  "get_catalog_item";
  "get_catalog_items";
  "get_catalogs";
  "get_channels";
  "get_child_campaigns";
  "get_email_template";
  "get_embedded_messages";
  "get_experiment_metrics";
  "get_export_files";
  "get_export_jobs";
  "get_in_app_messages";
  "get_inapp_template";
  "get_journeys";
  "get_list_preview_users";
  "get_list_size";
  "get_list_users";
  "get_lists";
  "get_message_types";
  "get_push_template";
  "get_sent_messages";
  "get_sms_template";
  "get_snippet";
  "get_snippets";
  "get_template_by_client_id";
  "get_templates";
  "get_user_by_email";
  "get_user_by_user_id";
  "get_user_events_by_email";
  "get_user_events_by_user_id";
  "get_user_fields";
  "get_webhooks";
  "preview_email_template";
  "preview_inapp_template"
].

(** Tools that can directly or indirectly trigger sending messages. *)
Definition SEND_TOOLS : gset string := list_to_set [
  (* Campaign sends and enablers *)
  "send_campaign";
  "trigger_campaign";
  "schedule_campaign";
  "create_campaign";
  "activate_triggered_campaign";
  (* Journey triggers *)
  "trigger_journey";
  (* Events may drive sends *)
  "track_event";
  "track_bulk_events";
  (* Direct messaging *)
  "send_email";
  "send_sms";
  "send_whatsapp";
  "send_web_push";
  "send_push";
  "send_in_app";
  (* Template proofs *)
  "send_email_template_proof";
  "send_sms_template_proof";
  "send_push_template_proof";
  "send_inapp_template_proof"
].

(** Check if a tool should be available based on configuration. *)
Definition isToolAllowed (toolName : string) (config : McpServerConfig) : bool :=
  (* Check PII restriction *)
  if negb (allowUserPii config) && negb (has NON_PII_TOOLS toolName) then false
  (* Check write restriction *)
  else if negb (allowWrites config) && negb (has READ_ONLY_TOOLS toolName) then false
  (* Check send restriction *)
  else if negb (allowSends config) && has SEND_TOOLS toolName then false
  else true.

Definition PII_REASON : string :=
  "This tool exposes user PII. Enable with ITERABLE_USER_PII=true".
Definition WRITE_REASON : string :=
  "This tool modifies data. Enable with ITERABLE_ENABLE_WRITES=true".
Definition SEND_REASON : string :=
  "This tool can send messages. Enable with ITERABLE_ENABLE_SENDS=true".

(** Get a human-readable reason why a tool is blocked; [None] is the
    source's [null]. *)
Definition getBlockedReason (toolName : string) (config : McpServerConfig)
  : option string :=
  if negb (allowUserPii config) && negb (has NON_PII_TOOLS toolName) then
    Some PII_REASON
  else if negb (allowWrites config) && negb (has READ_ONLY_TOOLS toolName) then
    Some WRITE_REASON
  else if negb (allowSends config) && has SEND_TOOLS toolName then
    Some SEND_REASON
  else None.

End Filter.

(** ** The JavaScript built-ins the client and the worker call

    These are models of the ECMAScript and WHATWG operations the source
    relies on, restricted to what it uses.  Numbers are decimal values
    [m * 10^e] or [NaN]: binary rounding, infinities and the sign of zero
    are not modelled, so the model agrees with a double wherever the
    decimal is the shortest representation of that double (every integer
    below 2^53 in magnitude is).  Strings are UTF-8, so a lone surrogate
    written as a JSON escape reads as U+FFFD, as it does once the string
    is encoded. *)

Module Js.

(** *** Characters and strings *)

Definition code (c : ascii) : N := N_of_ascii c.
Definition chr (n : N) : ascii := ascii_of_N n.

Definition in_range (lo hi : N) (c : ascii) : bool :=
  ((lo <=? code c) && (code c <=? hi))%N.

Definition is_digit : ascii → bool := in_range 48 57.
Definition is_upper : ascii → bool := in_range 65 90.
Definition is_lower : ascii → bool := in_range 97 122.
Definition is_alnum (c : ascii) : bool := is_digit c || is_upper c || is_lower c.

Definition digit_val (c : ascii) : Z := Z.of_N (code c) - 48.

Definition string_of_list (l : list ascii) : string :=
  fold_right String EmptyString l.

(** A string is truthy when it is not empty. *)
Definition nonempty (s : string) : bool :=
  match s with EmptyString => false | String _ _ => true end.

(** The white space that [trim] and [parseInt] strip (WhiteSpace and
    LineTerminator), by the length of its UTF-8 encoding: TAB, LF, VT, FF,
    CR, SP; U+00A0; U+1680, U+2000 to U+200A, U+2028, U+2029, U+202F,
    U+205F, U+3000 and U+FEFF. *)
Definition is_ws1 (a : ascii) : bool :=
  in_range 9 13 a || (code a =? 32)%N.

Definition is_ws2 (a b : ascii) : bool :=
  ((code a =? 194) && (code b =? 160))%N.

Definition is_ws3 (a b c : ascii) : bool :=
  ((code a =? 225) && (code b =? 154) && (code c =? 128))%N
  || ((code a =? 226) && (code b =? 128))%N
     && (in_range 128 138 c || in_range 168 169 c || (code c =? 175)%N)
  || ((code a =? 226) && (code b =? 129) && (code c =? 159))%N
  || ((code a =? 227) && (code b =? 128) && (code c =? 128))%N
  || ((code a =? 239) && (code b =? 187) && (code c =? 191))%N.

(** Drop the white space at the front of a string; with [back] set the
    string is read from its end, so each character's bytes come last
    byte first. *)
Fixpoint strip_ws (back : bool) (s : string) : string :=
  match s with
  | String a r1 =>
    if is_ws1 a then strip_ws back r1
    else match r1 with
    | String b r2 =>
      if (if back then is_ws2 b a else is_ws2 a b) then strip_ws back r2
      else match r2 with
      | String c r3 =>
        if (if back then is_ws3 c b a else is_ws3 a b c) then strip_ws back r3
        else s
      | EmptyString => s
      end
    | EmptyString => s
    end
  | EmptyString => s
  end.

Definition trimStart (s : string) : string := strip_ws false s.
Definition trimEnd (s : string) : string :=
  String.rev (strip_ws true (String.rev s)).
(** [String.prototype.trim] *)
Definition trim (s : string) : string := trimEnd (trimStart s).

(** [s.split(sep)] for a separator of one character: never an empty list. *)
Fixpoint split (sep : ascii) (s : string) : list string :=
  match s with
  | EmptyString => [EmptyString]
  | String c r =>
    if Ascii.eqb c sep then EmptyString :: split sep r
    else match split sep r with
         | h :: t => String c h :: t
         | [] => [String c EmptyString]
         end
  end.

(** *** Numbers *)

Inductive number :=
| NaN
| Dec (m e : Z).  (* m * 10^e *)

(** Move the trailing zeros of the digits into the exponent. *)
Fixpoint strip_zeros (fuel : nat) (m e : Z) : Z * Z :=
  match fuel with
  | O => (m, e)
  | S fuel' =>
    if (m =? 0)%Z then (0, 0)%Z
    else if (m mod 10 =? 0)%Z then strip_zeros fuel' (m / 10)%Z (e + 1)%Z
    else (m, e)
  end.

Definition normalize (m e : Z) : Z * Z :=
  strip_zeros (S (Z.to_nat (Z.log2 (Z.abs m)))) m e.

Definition mkNum (m e : Z) : number :=
  let '(m', e') := normalize m e in Dec m' e'.

(** An integer literal of the source. *)
Definition int (z : Z) : number := mkNum z 0.

Definition digits (p : positive) : string :=
  NilEmpty.string_of_uint (Pos.to_uint p).

Definition digitsZ (z : Z) : string :=
  match z with
  | Zpos p => digits p
  | _ => "0"
  end.

Fixpoint zeros (n : nat) : string :=
  match n with O => EmptyString | S n' => String "0" (zeros n') end.

(** [Number::toString] in radix 10 on the digits [ds] of a positive value
    [ds * 10^e], [ds] without trailing zero. *)
Definition format_decimal (ds : string) (e : Z) : string :=
  let k := Z.of_nat (String.length ds) in
  let n := (k + e)%Z in
  if ((k <=? n) && (n <=? 21))%Z then ds +:+ zeros (Z.to_nat e)
  else if ((0 <? n) && (n <=? 21))%Z then
    substring 0 (Z.to_nat n) ds +:+ "." +:+
    substring (Z.to_nat n) (Z.to_nat (k - n)) ds
  else if ((-6 <? n) && (n <=? 0))%Z then "0." +:+ zeros (Z.to_nat (- n)) +:+ ds
  else
    let ex := (n - 1)%Z in
    let es := (if (ex <? 0)%Z then "-" else "+") +:+ digitsZ (Z.abs ex) in
    match ds with
    | EmptyString => EmptyString
    | String d EmptyString => String d ("e" +:+ es)
    | String d rest => String d ("." +:+ rest +:+ "e" +:+ es)
    end.

Definition Number_toString (x : number) : string :=
  match x with
  | NaN => "NaN"
  | Dec m e =>
    match normalize m e with
    | (Z0, _) => "0"
    | (Zpos p, e') => format_decimal (digits p) e'
    | (Zneg p, e') => "-" +:+ format_decimal (digits p) e'
    end
  end.

(** The longest prefix of decimal digits. *)
Fixpoint leading_digits (s : string) : string :=
  match s with
  | String c r => if is_digit c then String c (leading_digits r) else EmptyString
  | EmptyString => EmptyString
  end.

Definition digits_value (s : string) : Z :=
  fold_left (fun acc c => (acc * 10 + digit_val c)%Z) (list_ascii_of_string s) 0%Z.

(** [parseInt(input, 10)] on a string: leading white space, an optional
    sign, then the longest run of digits; [NaN] when there is no digit. *)
Definition parseInt10 (input : string) : number :=
  let s := trimStart input in
  let '(neg, s) :=
    match s with
    | String "-" r => (true, r)
    | String "+" r => (false, r)
    | _ => (false, s)
    end in
  match leading_digits s with
  | EmptyString => NaN
  | ds => int (if neg then - digits_value ds else digits_value ds)
  end.

(** *** Values *)

Unset Elimination Schemes.
Inductive jsvalue :=
| JUndefined
| JNull
| JBool (b : bool)
| JNum (x : number)
| JStr (s : string)
| JArr (l : list jsvalue)
| JObj (m : gmap string jsvalue).
Set Elimination Schemes.

(** [ToString] throws a [TypeError] on an object that has a property of
    its own named toString: no value here can be called, so the property
    hides [Object.prototype.toString], and [valueOf] gives no primitive
    value either.  An array throws when one of the elements it joins
    does. *)
Fixpoint ToString_throws (v : jsvalue) : bool :=
  match v with
  | JObj m => bool_decide (is_Some (m !! "toString"))
  | JArr l =>
    (fix elements (l : list jsvalue) : bool :=
       match l with
       | [] => false
       | x :: r => ToString_throws x || elements r
       end) l
  | _ => false
  end.

(** The string [ToString] gives when it does not throw; an array joins
    its elements with commas, [null] and [undefined] elements as empty
    strings. *)
Fixpoint ToString (v : jsvalue) : string :=
  match v with
  | JUndefined => "undefined"
  | JNull => "null"
  | JBool true => "true"
  | JBool false => "false"
  | JNum x => Number_toString x
  | JStr s => s
  | JArr l =>
    String.concat ","
      ((fix elements (l : list jsvalue) : list string :=
          match l with
          | [] => []
          | JUndefined :: r | JNull :: r => EmptyString :: elements r
          | x :: r => ToString x :: elements r
          end) l)
  | JObj _ => "[object Object]"
  end.

(** [ToBoolean] *)
Definition truthy (v : jsvalue) : bool :=
  match v with
  | JUndefined | JNull => false
  | JBool b => b
  | JNum NaN => false
  | JNum (Dec m _) => negb (m =? 0)%Z
  | JStr s => nonempty s
  | JArr _ | JObj _ => true
  end.

(** [v === undefined] *)
Definition is_undefined (v : jsvalue) : bool :=
  match v with JUndefined => true | _ => false end.

(** [parseInt(v, 10)]: the value is converted to a string first; [None]
    is the [TypeError] of that conversion. *)
Definition parseInt (v : jsvalue) : option number :=
  if ToString_throws v then None else Some (parseInt10 (ToString v)).

(** The text [JSON.stringify] gives for a value, kept symbolic. *)
Inductive json_text := JSON_stringify (v : jsvalue).

(** *** [JSON.parse]

    The text is cut into tokens by a machine that reads one byte at a
    time, and the tokens are assembled with a stack of open containers.
    [None] is the SyntaxError the built-in throws.  The text is the body
    of a response, decoded from UTF-8, so it holds no lone surrogate
    itself; in the strings of the result one can come from a \uXXXX
    escape only. *)

Inductive token :=
| TLBrace | TRBrace | TLBracket | TRBracket | TColon | TComma
| TString (s : string)
| TNumber (x : number)
| TTrue | TFalse | TNull.

(** Where the machine stands inside a number: an optional minus; an
    integer part that is 0 or starts with a digit from 1 to 9; an optional
    point with one digit or more; an optional e or E with an optional sign
    and one digit or more. *)
Inductive numphase :=
| NMinus   (* after the sign: a digit must follow *)
| NZero    (* the integer part is a single 0 *)
| NInt     (* in the integer part *)
| NDot     (* after the point: a digit must follow *)
| NFrac    (* in the fraction *)
| NE       (* after e or E: a sign or a digit must follow *)
| NESign   (* after the sign of the exponent: a digit must follow *)
| NExp.    (* in the exponent *)

Record numacc := {
  n_neg : bool;   (* a leading minus *)
  n_mant : Z;     (* the digits read so far, point removed *)
  n_frac : Z;     (* how many of them stand after the point *)
  e_neg : bool;   (* a minus on the exponent *)
  e_val : Z;      (* the exponent's digits *)
}.

Definition num_start (neg : bool) (mant : Z) : numacc :=
  {| n_neg := neg; n_mant := mant; n_frac := 0; e_neg := false; e_val := 0 |}.

Definition push_int (a : numacc) (c : ascii) : numacc :=
  {| n_neg := n_neg a; n_mant := n_mant a * 10 + digit_val c;
     n_frac := n_frac a; e_neg := e_neg a; e_val := e_val a |}.

Definition push_frac (a : numacc) (c : ascii) : numacc :=
  {| n_neg := n_neg a; n_mant := n_mant a * 10 + digit_val c;
     n_frac := n_frac a + 1; e_neg := e_neg a; e_val := e_val a |}.

Definition push_exp (a : numacc) (c : ascii) : numacc :=
  {| n_neg := n_neg a; n_mant := n_mant a; n_frac := n_frac a;
     e_neg := e_neg a; e_val := e_val a * 10 + digit_val c |}.

Definition set_eneg (a : numacc) : numacc :=
  {| n_neg := n_neg a; n_mant := n_mant a; n_frac := n_frac a;
     e_neg := true; e_val := e_val a |}.

Definition num_value (a : numacc) : number :=
  mkNum (if n_neg a then - n_mant a else n_mant a)
        ((if e_neg a then - e_val a else e_val a) - n_frac a).

Inductive numstep :=
| NumCont (ph : numphase) (a : numacc)  (* the byte belongs to the number *)
| NumEnd                                (* the number ended before the byte *)
| NumErr.

Definition is_e (c : ascii) : bool :=
  Ascii.eqb c "e" || Ascii.eqb c "E".

Definition num_step (ph : numphase) (a : numacc) (c : ascii) : numstep :=
  match ph with
  | NMinus =>
    if Ascii.eqb c "0" then NumCont NZero a
    else if is_digit c then NumCont NInt (push_int a c)
    else NumErr
  | NZero =>
    if Ascii.eqb c "." then NumCont NDot a
    else if is_e c then NumCont NE a
    else NumEnd
  | NInt =>
    if is_digit c then NumCont NInt (push_int a c)
    else if Ascii.eqb c "." then NumCont NDot a
    else if is_e c then NumCont NE a
    else NumEnd
  | NDot =>
    if is_digit c then NumCont NFrac (push_frac a c) else NumErr
  | NFrac =>
    if is_digit c then NumCont NFrac (push_frac a c)
    else if is_e c then NumCont NE a
    else NumEnd
  | NE =>
    if Ascii.eqb c "+" then NumCont NESign a
    else if Ascii.eqb c "-" then NumCont NESign (set_eneg a)
    else if is_digit c then NumCont NExp (push_exp a c)
    else NumErr
  | NESign =>
    if is_digit c then NumCont NExp (push_exp a c) else NumErr
  | NExp =>
    if is_digit c then NumCont NExp (push_exp a c) else NumEnd
  end.

(** A number may end only after a digit of one of its three parts. *)
Definition num_final (ph : numphase) : bool :=
  match ph with
  | NZero | NInt | NFrac | NExp => true
  | NMinus | NDot | NE | NESign => false
  end.

(** UTF-8 of a code point, and of a lone surrogate the three bytes that
    stand for it. *)
Definition utf8 (cp : N) : list ascii :=
  (if cp <? 128 then [chr cp]
   else if cp <? 2048 then [chr (192 + cp / 64); chr (128 + cp mod 64)]
   else if cp <? 65536 then
     [chr (224 + cp / 4096); chr (128 + (cp / 64) mod 64); chr (128 + cp mod 64)]
   else
     [chr (240 + cp / 262144); chr (128 + (cp / 4096) mod 64);
      chr (128 + (cp / 64) mod 64); chr (128 + cp mod 64)])%N.

Definition is_high_surrogate (u : N) : bool := ((55296 <=? u) && (u <=? 56319))%N.
Definition is_low_surrogate (u : N) : bool := ((56320 <=? u) && (u <=? 57343))%N.
(** U+FFFD, the replacement character. *)
Definition replacement : list ascii := utf8 65533.

Definition hex_val (c : ascii) : option N :=
  if is_digit c then Some (code c - 48)%N
  else if in_range 97 102 c then Some (code c - 87)%N
  else if in_range 65 70 c then Some (code c - 55)%N
  else None.

(** Where the machine stands inside a string literal. *)
Inductive strphase :=
| SChars                     (* between characters *)
| SEsc                       (* after a backslash *)
| SUni (k : nat) (u : N).    (* in \uXXXX, [k] digits to read *)

(** A string being read: its bytes so far, last first, and the high
    surrogate of a \uXXXX escape that still waits for its low half. *)
Record stracc := {
  s_rev : list ascii;
  s_high : option N;
}.

Definition emit (bytes : list ascii) (a : stracc) : stracc :=
  {| s_rev := rev bytes ++ s_rev a; s_high := s_high a |}.

(** A high surrogate that got no low half is a lone one, and stays in the
    string. *)
Definition flush (a : stracc) : stracc :=
  match s_high a with
  | Some hi => {| s_rev := rev (utf8 hi) ++ s_rev a; s_high := None |}
  | None => a
  end.

(** The code unit [u] of a \uXXXX escape. *)
Definition push_unit (u : N) (a : stracc) : stracc :=
  match s_high a with
  | Some hi =>
    if is_low_surrogate u then
      {| s_rev := rev (utf8 (65536 + (hi - 55296) * 1024 + (u - 56320))%N) ++ s_rev a;
         s_high := None |}
    else if is_high_surrogate u then
      {| s_rev := rev (utf8 hi) ++ s_rev a; s_high := Some u |}
    else emit (utf8 u) (flush a)
  | None =>
    if is_high_surrogate u then {| s_rev := s_rev a; s_high := Some u |}
    else emit (utf8 u) a
  end.

Definition escape_char (c : ascii) : option ascii :=
  if Ascii.eqb c (chr 34) || Ascii.eqb c "\" || Ascii.eqb c "/" then Some c
  else if Ascii.eqb c "b" then Some (chr 8)
  else if Ascii.eqb c "f" then Some (chr 12)
  else if Ascii.eqb c "n" then Some (chr 10)
  else if Ascii.eqb c "r" then Some (chr 13)
  else if Ascii.eqb c "t" then Some (chr 9)
  else None.

Inductive lexmode :=
| LIdle
| LWord (rest : string) (t : token)   (* in true, false or null *)
| LNum (ph : numphase) (a : numacc)
| LStr (ph : strphase) (a : stracc).

Definition is_json_ws (c : ascii) : bool :=
  (code c =? 9)%N || (code c =? 10)%N || (code c =? 13)%N || (code c =? 32)%N.

(** The tokens are kept last first. *)
Definition lex_idle (toks : list token) (c : ascii) : option (lexmode * list token) :=
  if is_json_ws c then Some (LIdle, toks)
  else if Ascii.eqb c "{" then Some (LIdle, TLBrace :: toks)
  else if Ascii.eqb c "}" then Some (LIdle, TRBrace :: toks)
  else if Ascii.eqb c "[" then Some (LIdle, TLBracket :: toks)
  else if Ascii.eqb c "]" then Some (LIdle, TRBracket :: toks)
  else if Ascii.eqb c ":" then Some (LIdle, TColon :: toks)
  else if Ascii.eqb c "," then Some (LIdle, TComma :: toks)
  else if Ascii.eqb c (chr 34) then
    Some (LStr SChars {| s_rev := []; s_high := None |}, toks)
  else if Ascii.eqb c "-" then Some (LNum NMinus (num_start true 0), toks)
  else if Ascii.eqb c "0" then Some (LNum NZero (num_start false 0), toks)
  else if is_digit c then Some (LNum NInt (num_start false (digit_val c)), toks)
  else if Ascii.eqb c "t" then Some (LWord "rue" TTrue, toks)
  else if Ascii.eqb c "f" then Some (LWord "alse" TFalse, toks)
  else if Ascii.eqb c "n" then Some (LWord "ull" TNull, toks)
  else None.

Definition lex_string (ph : strphase) (a : stracc) (toks : list token) (c : ascii)
  : option (lexmode * list token) :=
  match ph with
  | SChars =>
    if Ascii.eqb c (chr 34) then
      Some (LIdle, TString (string_of_list (rev (s_rev (flush a)))) :: toks)
    else if Ascii.eqb c "\" then Some (LStr SEsc a, toks)
    else if (code c <? 32)%N then None
    else Some (LStr SChars (emit [c] (flush a)), toks)
  | SEsc =>
    if Ascii.eqb c "u" then Some (LStr (SUni 4 0) a, toks)
    else match escape_char c with
         | Some c' => Some (LStr SChars (emit [c'] (flush a)), toks)
         | None => None
         end
  | SUni k u =>
    match hex_val c with
    | Some h =>
      let u' := (u * 16 + h)%N in
      match k with
      | S (S k') => Some (LStr (SUni (S k') u') a, toks)
      | _ => Some (LStr SChars (push_unit u' a), toks)
      end
    | None => None
    end
  end.

Definition lex_char (st : lexmode * list token) (c : ascii)
  : option (lexmode * list token) :=
  let '(mode, toks) := st in
  match mode with
  | LIdle => lex_idle toks c
  | LWord rest t =>
    match rest with
    | String d EmptyString => if Ascii.eqb c d then Some (LIdle, t :: toks) else None
    | String d rest' => if Ascii.eqb c d then Some (LWord rest' t, toks) else None
    | EmptyString => None
    end
  | LNum ph a =>
    match num_step ph a c with
    | NumCont ph' a' => Some (LNum ph' a', toks)
    | NumEnd => lex_idle (TNumber (num_value a) :: toks) c
    | NumErr => None
    end
  | LStr ph a => lex_string ph a toks c
  end.

Fixpoint lex_from (st : lexmode * list token) (s : string)
  : option (lexmode * list token) :=
  match s with
  | EmptyString => Some st
  | String c r =>
    match lex_char st c with
    | Some st' => lex_from st' r
    | None => None
    end
  end.

(** The tokens of a text, first one first. *)
Definition lex (s : string) : option (list token) :=
  match lex_from (LIdle, []) s with
  | Some (LIdle, toks) => Some (rev toks)
  | Some (LNum ph a, toks) =>
    if num_final ph then Some (rev (TNumber (num_value a) :: toks)) else None
  | Some (LWord _ _, _) | Some (LStr _ _, _) | None => None
  end.

(** An open container: an array with its elements so far, last first; an
    object that waits for a key or a comma; an object that has read the
    key [k] and waits for its value. *)
Inductive frame :=
| FArr (acc : list jsvalue)
| FObj (m : gmap string jsvalue)
| FKey (m : gmap string jsvalue) (k : string).

Inductive pmode :=
| PValue          (* a value must follow *)
| PValueOrClose   (* after [: a value or ] *)
| PKeyOrClose     (* after {: a key or } *)
| PKey            (* after a comma in an object *)
| PColon          (* after a key *)
| PAfter          (* after a value in a container: a comma or the close *)
| PDone (v : jsvalue).

(** A value is complete: it goes into the innermost open container. *)
Definition push_value (v : jsvalue) (stack : list frame) : option (list frame * pmode) :=
  match stack with
  | [] => Some ([], PDone v)
  | FArr acc :: st => Some (FArr (v :: acc) :: st, PAfter)
  | FKey m k :: st => Some (FObj (<[k := v]> m) :: st, PAfter)
  | FObj _ :: _ => None
  end.

Definition parse_value_token (stack : list frame) (t : token)
  : option (list frame * pmode) :=
  match t with
  | TString s => push_value (JStr s) stack
  | TNumber x => push_value (JNum x) stack
  | TTrue => push_value (JBool true) stack
  | TFalse => push_value (JBool false) stack
  | TNull => push_value JNull stack
  | TLBracket => Some (FArr [] :: stack, PValueOrClose)
  | TLBrace => Some (FObj ∅ :: stack, PKeyOrClose)
  | TRBrace | TRBracket | TColon | TComma => None
  end.

Definition parse_key_token (stack : list frame) (t : token)
  : option (list frame * pmode) :=
  match t, stack with
  | TString k, FObj m :: st => Some (FKey m k :: st, PColon)
  | _, _ => None
  end.

Definition parse_close (stack : list frame) (t : token)
  : option (list frame * pmode) :=
  match t, stack with
  | TRBracket, FArr acc :: st => push_value (JArr (rev acc)) st
  | TRBrace, FObj m :: st => push_value (JObj m) st
  | _, _ => None
  end.

Definition parse_token (st : list frame * pmode) (t : token)
  : option (list frame * pmode) :=
  let '(stack, mode) := st in
  match mode with
  | PValue => parse_value_token stack t
  | PValueOrClose =>
    match t with
    | TRBracket => parse_close stack t
    | _ => parse_value_token stack t
    end
  | PKeyOrClose =>
    match t with
    | TRBrace => parse_close stack t
    | _ => parse_key_token stack t
    end
  | PKey => parse_key_token stack t
  | PColon =>
    match t with
    | TColon => Some (stack, PValue)
    | _ => None
    end
  | PAfter =>
    match t, stack with
    | TComma, FArr _ :: _ => Some (stack, PValue)
    | TComma, FObj _ :: _ => Some (stack, PKey)
    | TComma, _ => None
    | _, _ => parse_close stack t
    end
  | PDone _ => None
  end.

Fixpoint parse_tokens (st : list frame * pmode) (ts : list token)
  : option (list frame * pmode) :=
  match ts with
  | [] => Some st
  | t :: r =>
    match parse_token st t with
    | Some st' => parse_tokens st' r
    | None => None
    end
  end.

Definition JSON_parse (text : string) : option jsvalue :=
  match lex text with
  | Some ts =>
    match parse_tokens ([], PValue) ts with
    | Some ([], PDone v) => Some v
    | _ => None
    end
  | None => None
  end.

(** *** Lone surrogates *)

(** The byte ED followed by a byte from A0 to BF starts a lone
    surrogate. *)
Definition surrogate_start (a b : ascii) : bool :=
  (code a =? 237)%N && in_range 160 191 b.

Fixpoint has_lone_surrogate (s : string) : bool :=
  match s with
  | String a (String b _ as r) => surrogate_start a b || has_lone_surrogate r
  | _ => false
  end.

(** The conversion to a string of scalar values ([USVString]): every
    lone surrogate becomes U+FFFD. *)
Fixpoint USVString (s : string) : string :=
  match s with
  | String a (String b r2 as r1) =>
    if surrogate_start a b then
      string_of_list replacement
      +:+ match r2 with
          | String _ r3 => USVString r3
          | EmptyString => EmptyString
          end
    else String a (USVString r1)
  | _ => s
  end.

(** *** [URLSearchParams]

    The object is the list of the pairs given to it; [toString] is the
    application/x-www-form-urlencoded serializer.  Names and values are
    strings of scalar values: the conversion is made here when a pair is
    written out, which is the only way the client reads the object. *)

Definition hex_digit (n : N) : ascii :=
  if (n <? 10)%N then chr (48 + n) else chr (55 + n).

Definition urlencode_byte (c : ascii) : string :=
  if is_alnum c || Ascii.eqb c "*" || Ascii.eqb c "-" || Ascii.eqb c "."
     || Ascii.eqb c "_"
  then String c EmptyString
  else if Ascii.eqb c " " then "+"
  else String "%" (String (hex_digit (code c / 16)) (String (hex_digit (code c mod 16)) EmptyString)).

Fixpoint urlencode_bytes (s : string) : string :=
  match s with
  | EmptyString => EmptyString
  | String c r => urlencode_byte c +:+ urlencode_bytes r
  end.

Definition urlencode (s : string) : string := urlencode_bytes (USVString s).

Definition URLSearchParams := list (string * string).

Definition append (name value : string) (sp : URLSearchParams) : URLSearchParams :=
  sp ++ [(name, value)].

(** The first value of the name, or [null]. *)
Fixpoint get (name : string) (sp : URLSearchParams) : option string :=
  match sp with
  | [] => None
  | (k, v) :: r => if String.eqb k name then Some v else get name r
  end.

Definition serialize_pair (p : string * string) : string :=
  urlencode (fst p) +:+ "=" +:+ urlencode (snd p).

Definition URLSearchParams_toString (sp : URLSearchParams) : string :=
  String.concat "&" (map serialize_pair sp).

End Js.

(** ** The API client ([src/client/iterable.ts]) *)

Module Client.
Import Js.

Record IterableClientConfig := {
  cfg_apiKey : string;
  cfg_baseUrl : option string;
}.

Record IterableApiError := {
  status : Z;
  statusText : string;
  body : jsvalue;
}.

(** The message the constructor hands to [Error]. *)
Definition message (e : IterableApiError) : string :=
  "Iterable API error: " +:+ Number_toString (int (status e)) +:+ " "
  +:+ statusText e.

(** What a [throw] can carry, as far as the [catch] of [request] tells
    values apart: an [IterableApiError], another [Error] with its message,
    or a value that is no [Error]. *)
Inductive thrown :=
| ThrownApiError (e : IterableApiError)
| ThrownError (msg : string)
| ThrownValue (v : jsvalue).

(** The two errors the built-ins throw on their own: the [TypeError] of
    a conversion to a primitive value and the [URIError] of
    [encodeURIComponent], each an [Error] with the message the engine of
    the Workers runtime gives it. *)
Definition TypeError_to_primitive : thrown :=
  ThrownError "Cannot convert object to primitive value".
Definition URIError_malformed : thrown := ThrownError "URI malformed".

(** The result of a call that may throw; an awaited promise returns when
    it is fulfilled and throws when it is rejected. *)
Inductive completion (A : Type) :=
| Return (a : A)
| Throw (t : thrown).
Arguments Return {A} a.
Arguments Throw {A} t.

(** The part of a fetch [Response] the client reads; [text] is what
    [response.text()] settles to. *)
Record Response := {
  ok : bool;
  resp_status : Z;
  resp_statusText : string;
  text : completion string;
}.

Record RequestInit := {
  method : string;
  headers : list (string * string);
  init_body : option json_text;
}.

Record IterableClient := {
  apiKey : string;
  baseUrl : string;
}.

Definition new_IterableClient (config : IterableClientConfig) : IterableClient :=
  {| apiKey := cfg_apiKey config;
     baseUrl :=
       match cfg_baseUrl config with
       | Some b => if nonempty b then b else "https://api.iterable.com"
       | None => "https://api.iterable.com"
       end |}.

(** The [options] of [request]: an absent [body] is [JUndefined], and
    [params] is the list of the entries of the object. *)
Record RequestOptions := {
  opt_body : jsvalue;
  opt_params : option (list (string * jsvalue));
}.

(** The loop [for (const [key, value] of Object.entries(o))] that appends
    every entry whose value is not [undefined].  The values are of the
    type [string | number | boolean | undefined] of [params], on which
    [String(value)] does not throw. *)
Definition append_defined (searchParams : URLSearchParams)
  (entries : list (string * jsvalue)) : URLSearchParams :=
  fold_left
    (fun sp entry =>
       if is_undefined (snd entry) then sp
       else append (fst entry) (ToString (snd entry)) sp)
    entries searchParams.

(** The URL [request] calls. *)
Definition request_url (self : IterableClient) (path : string)
  (options : option RequestOptions) : string :=
  let url := baseUrl self +:+ path in
  (* Add query params if provided *)
  match options with
  | Some {| opt_params := Some params |} =>
    let searchParams := append_defined [] params in
    let queryString := URLSearchParams_toString searchParams in
    if nonempty queryString then url +:+ "?" +:+ queryString else url
  | _ => url
  end.

Definition request_init (self : IterableClient) (method : string)
  (options : option RequestOptions) : RequestInit :=
  {| method := method;
     headers := [("Api-Key", apiKey self);
                 ("Content-Type", "application/json");
                 ("User-Agent", "iterable-mcp-cloudflare/1.0.0")];
     init_body :=
       match options with
       | Some o => if truthy (opt_body o) then Some (JSON_stringify (opt_body o)) else None
       | None => None
       end |}.

(** The rethrow of the outer [catch]. *)
Definition network_error (error : thrown) : thrown :=
  match error with
  | ThrownApiError e => ThrownApiError e
  | ThrownError msg =>
    ThrownApiError {| status := 0; statusText := "Network Error"; body := JStr msg |}
  | ThrownValue v =>
    ThrownApiError {| status := 0; statusText := "Network Error";
                      body := JStr (ToString v) |}
  end.

(** The outer [catch] of [request] around the completion of its [try]. *)
Definition request_catch (attempt : completion jsvalue) : completion jsvalue :=
  match attempt with
  | Return v => Return v
  | Throw error => Throw (network_error error)
  end.

Section WithFetch.

(** The network: what [fetch(url, init)] settles to. *)
Variable fetch : string → RequestInit → completion Response.

(** The body of the [try] of [request]. *)
Definition request_try (url : string) (init : RequestInit) : completion jsvalue :=
  match fetch url init with
  | Throw t => Throw t
  | Return response =>
    if negb (ok response) then
      let body := match text response with Return s => s | Throw _ => "" end in
      Throw (ThrownApiError
               {| status := resp_status response;
                  statusText := resp_statusText response;
                  body := JStr body |})
    else
      (* Handle empty responses *)
      match text response with
      | Throw t => Throw t
      | Return text =>
        if negb (nonempty text) then Return (JObj ∅)
        else
          (* Try to parse as JSON, fallback to raw text *)
          match JSON_parse text with
          | Some v => Return v
          | None => Return (JStr text)
          end
      end
  end.

Definition request (self : IterableClient) (method path : string)
  (options : option RequestOptions) : completion jsvalue :=
  request_catch
    (request_try (request_url self path options)
                 (request_init self method options)).

(** *** Campaigns *)

Record GetCampaignsParams := {
  page : option number;
  pageSize : option number;
  sort : option string;
}.

Definition opt_num (o : option number) : jsvalue :=
  match o with Some x => JNum x | None => JUndefined end.

Definition opt_str (o : option string) : jsvalue :=
  match o with Some s => JStr s | None => JUndefined end.

Definition getCampaigns_params (params : option GetCampaignsParams)
  : list (string * jsvalue) :=
  [("page", JNum (default (int 1) (params ≫= page)));
   ("pageSize", JNum (default (int 20) (params ≫= pageSize)));
   ("sort", opt_str (params ≫= sort))].

Definition getCampaigns_options (params : option GetCampaignsParams)
  : option RequestOptions :=
  Some {| opt_body := JUndefined;
          opt_params := Some (getCampaigns_params params) |}.

Definition getCampaigns (self : IterableClient) (params : option GetCampaignsParams)
  : completion jsvalue :=
  request self "GET" "/api/campaigns" (getCampaigns_options params).

(** *** Users *)

Record GetSentMessagesParams := {
  email : option string;
  userId : option string;
  limit : option number;
  campaignIds : option (list number);
  startDateTime : option string;
  endDateTime : option string;
  messageMedium : option string;
}.

Definition getSentMessages_searchParams (params : GetSentMessagesParams)
  : URLSearchParams :=
  let queryParams :=
    [("email", opt_str (email params));
     ("userId", opt_str (userId params));
     ("limit", opt_num (limit params));
     ("startDateTime", opt_str (startDateTime params));
     ("endDateTime", opt_str (endDateTime params));
     ("messageMedium", opt_str (messageMedium params))] in
  let searchParams := append_defined [] queryParams in
  (* Handle array params *)
  match campaignIds params with
  | Some ids =>
    fold_left (fun sp id => append "campaignIds" (Number_toString id) sp)
      ids searchParams
  | None => searchParams
  end.

Definition getSentMessages_path (params : GetSentMessagesParams) : string :=
  let path := "/api/users/getSentMessages" in
  let queryString :=
    URLSearchParams_toString (getSentMessages_searchParams params) in
  if nonempty queryString then path +:+ "?" +:+ queryString else path.

Definition getSentMessages (self : IterableClient) (params : GetSentMessagesParams)
  : completion jsvalue :=
  request self "GET" (getSentMessages_path params) None.

(** *** Lists *)

Definition getListSize (self : IterableClient) (listId : number)
  : completion jsvalue :=
  match request self "GET"
          ("/api/lists/" +:+ Number_toString listId +:+ "/size") None with
  | Throw t => Throw t
  | Return result =>
    (* outside the try of request: a TypeError of parseInt is thrown as
       it is *)
    match parseInt result with
    | Some size => Return (JObj {[ "size" := JNum size ]})
    | None => Throw TypeError_to_primitive
    end
  end.

Record GetListUsersParams := {
  listId : number;
  maxResults : option number;
}.

Definition getListUsers (self : IterableClient) (params : GetListUsersParams)
  : completion jsvalue :=
  match request self "GET" "/api/lists/getUsers"
          (Some {| opt_body := JUndefined;
                   opt_params :=
                     Some [("listId", JNum (listId params));
                           ("maxResults", opt_num (maxResults params))] |}) with
  | Throw t => Throw t
  (* Parse newline-delimited email addresses *)
  | Return (JStr result) =>
    let emails :=
      List.filter (fun email => nonempty (trim email))
        (split "010" (trim result)) in
    Return (JObj {[ "users" :=
      JArr (map (fun email => JObj {[ "email" := JStr (trim email) ]}) emails) ]})
  | Return result => Return result
  end.

End WithFetch.

End Client.

(** ** The worker entry point ([src/index.ts]) *)

Module Worker.
Import Js.

(** The environment bindings; an absent optional binding is [None].  The
    Durable Object namespace is opaque to the entry point and left out. *)
Record Env := {
  ITERABLE_API_KEY : option string;
  ITERABLE_API_BASE_URL : option string;
  ITERABLE_USER_PII : string;
  ITERABLE_ENABLE_WRITES : string;
  ITERABLE_ENABLE_SENDS : string;
}.

(** Parse environment variables into typed config. *)
Definition parseConfig (env : Env) : McpServerConfig :=
  {| allowUserPii := String.eqb (ITERABLE_USER_PII env) "true";
     allowWrites := String.eqb (ITERABLE_ENABLE_WRITES env) "true";
     allowSends := String.eqb (ITERABLE_ENABLE_SENDS env) "true" |}.

(** What [new URL(request.url)] gives, as far as the entry point reads it. *)
Record URL := {
  pathname : string;
  searchParams : URLSearchParams;
}.

(** A header list; names compare without regard to ASCII case, and [get]
    joins the values of a repeated name. *)
Definition Headers := list (string * string).

Definition lower (c : ascii) : ascii :=
  if is_upper c then chr (code c + 32) else c.

Fixpoint lowercase (s : string) : string :=
  match s with
  | EmptyString => EmptyString
  | String c r => String (lower c) (lowercase r)
  end.

Definition Headers_get (name : string) (h : Headers) : option string :=
  match map snd (List.filter
                   (fun p => String.eqb (lowercase (fst p)) (lowercase name)) h) with
  | [] => None
  | values => Some (String.concat ", " values)
  end.

Record Request := {
  url : URL;
  headers : Headers;
}.

Record Response := {
  status : Z;
  resp_headers : list (string * string);
  body : json_text;
}.

(** What [fetch] returns: a response of its own, or the response of one
    of the two transports of the agent, called with the request and the
    environment that carries the resolved key. *)
Inductive outcome :=
| Respond (r : Response)
| ServeSSE (path : string) (request : Request) (envWithKey : Env)
| ServeMcp (path : string) (request : Request) (envWithKey : Env).

(** [a || b] on values that are a string, [null] or [undefined]. *)
Definition or_else (a b : option string) : option string :=
  match a with
  | Some s => if nonempty s then a else b
  | None => b
  end.

(** [!a] on such a value. *)
Definition falsy (a : option string) : bool :=
  match a with
  | Some s => negb (nonempty s)
  | None => true
  end.

(** Extract API key from request.
    Priority: query param > header > environment variable *)
Definition resolve_apiKey (request : Request) (env : Env) : option string :=
  or_else
    (or_else (get "api_key" (searchParams (url request)))
             (Headers_get "X-Iterable-Api-Key" (headers request)))
    (ITERABLE_API_KEY env).

Definition str_obj (l : list (string * string)) : jsvalue :=
  JObj (list_to_map (map (fun p => (fst p, JStr (snd p))) l)).

Definition fetch (request : Request) (env : Env) : outcome :=
  let url := url request in
  let apiKey := resolve_apiKey request env in
  (* Check if API key is provided *)
  if falsy apiKey
     && (String.eqb (pathname url) "/mcp" || String.eqb (pathname url) "/sse"
         || String.eqb (pathname url) "/sse/message")
  then
    Respond
      {| status := 401;
         resp_headers := [("Content-Type", "application/json")];
         body := JSON_stringify (str_obj
           [("error", "API key required");
            ("message", "Provide your Iterable API key via X-Iterable-Api-Key header or ?api_key query parameter");
            ("example", "https://iterable-mcp.workers.dev/mcp?api_key=YOUR_KEY")]) |}
  else
    (* Override environment with user's API key *)
    let envWithKey :=
      {| ITERABLE_API_KEY := apiKey;
         ITERABLE_API_BASE_URL := ITERABLE_API_BASE_URL env;
         ITERABLE_USER_PII := ITERABLE_USER_PII env;
         ITERABLE_ENABLE_WRITES := ITERABLE_ENABLE_WRITES env;
         ITERABLE_ENABLE_SENDS := ITERABLE_ENABLE_SENDS env |} in
    (* SSE transport (for backward compatibility) *)
    if String.eqb (pathname url) "/sse" || String.eqb (pathname url) "/sse/message"
    then ServeSSE "/sse" request envWithKey
    (* Streamable HTTP transport (recommended) *)
    else if String.eqb (pathname url) "/mcp"
    then ServeMcp "/mcp" request envWithKey
    (* Health check / info endpoint *)
    else
      Respond
        {| status := 200;
           resp_headers := [("Content-Type", "application/json");
                            ("Access-Control-Allow-Origin", "*")];
           body := JSON_stringify (JObj (list_to_map
             [("name", JStr "Iterable MCP Server");
              ("version", JStr "1.0.0");
              ("endpoints", str_obj
                 [("mcp", "/mcp?api_key=YOUR_KEY (recommended)");
                  ("sse", "/sse?api_key=YOUR_KEY (legacy)")]);
              ("authentication", JObj (list_to_map
                 [("methods", JArr [JStr "Query parameter (api_key)";
                                    JStr "Header (X-Iterable-Api-Key)"]);
                  ("example", JStr "curl https://iterable-mcp.workers.dev/mcp?api_key=YOUR_ITERABLE_API_KEY")]));
              ("documentation", JStr "https://github.com/iterable/mcp-server-cloudflare")])) |}.

(** [IterableMcpAgent.getClient]: the client a tool handler calls the
    upstream API with, made from the agent's environment. *)
Definition getClient (env : Env) : Client.IterableClient :=
  Client.new_IterableClient
    {| Client.cfg_apiKey := default "" (or_else (ITERABLE_API_KEY env) (Some ""));
       Client.cfg_baseUrl :=
         or_else (ITERABLE_API_BASE_URL env) (Some "https://api.iterable.com") |}.

End Worker.

(** ** Concrete inputs

    The requests, environments and networks the theorems below are
    instantiated at. *)

Module Examples.
Import Js.

Definition env_with_default : Worker.Env :=
  {| Worker.ITERABLE_API_KEY := Some "env-key";
     Worker.ITERABLE_API_BASE_URL := None;
     Worker.ITERABLE_USER_PII := "false";
     Worker.ITERABLE_ENABLE_WRITES := "false";
     Worker.ITERABLE_ENABLE_SENDS := "false" |}.

(** The environment [env_with_default] once the entry point has put the
    resolved key in it. *)
Definition env_with_key (key : string) : Worker.Env :=
  {| Worker.ITERABLE_API_KEY := Some key;
     Worker.ITERABLE_API_BASE_URL := None;
     Worker.ITERABLE_USER_PII := "false";
     Worker.ITERABLE_ENABLE_WRITES := "false";
     Worker.ITERABLE_ENABLE_SENDS := "false" |}.

Definition env_without_default : Worker.Env :=
  {| Worker.ITERABLE_API_KEY := None;
     Worker.ITERABLE_API_BASE_URL := None;
     Worker.ITERABLE_USER_PII := "false";
     Worker.ITERABLE_ENABLE_WRITES := "false";
     Worker.ITERABLE_ENABLE_SENDS := "false" |}.

Definition request_to (path : string) (query : URLSearchParams)
  (h : Worker.Headers) : Worker.Request :=
  {| Worker.url := {| Worker.pathname := path; Worker.searchParams := query |};
     Worker.headers := h |}.

(** The three sources give three different keys. *)
Definition request_all_three : Worker.Request :=
  request_to "/mcp" [("api_key", "query-key")]
    [("X-Iterable-Api-Key", "header-key")].

(** No key in the query string; the header is spelled in lower case. *)
Definition request_header_only : Worker.Request :=
  request_to "/mcp" [] [("x-iterable-api-key", "header-key")].

(** An empty key in the query string. *)
Definition request_empty_query : Worker.Request :=
  request_to "/mcp" [("api_key", "")] [("X-Iterable-Api-Key", "header-key")].

Definition request_bare : Worker.Request := request_to "/mcp" [] [].

Definition test_client : Client.IterableClient :=
  Client.new_IterableClient
    {| Client.cfg_apiKey := "test-api-key";
       Client.cfg_baseUrl := Some "https://api.iterable.com" |}.

(** A network that settles every call the same way. *)
Definition fetch_always (c : Client.completion Client.Response)
  : string → Client.RequestInit → Client.completion Client.Response :=
  fun _ _ => c.

(** A network that answers one URL and fails on every other. *)
Definition fetch_at (u : string) (r : Client.Response)
  : string → Client.RequestInit → Client.completion Client.Response :=
  fun url _ =>
    if String.eqb url u then Client.Return r
    else Client.Throw (Client.ThrownError "unexpected URL").

Definition response_ok (body : string) : Client.Response :=
  {| Client.ok := true; Client.resp_status := 200;
     Client.resp_statusText := "OK"; Client.text := Client.Return body |}.

Definition response_404 : Client.Response :=
  {| Client.ok := false; Client.resp_status := 404;
     Client.resp_statusText := "Not Found";
     Client.text := Client.Return "List not found" |}.

Definition LF : string := String "010" EmptyString.
Definition DQ : string := String (chr 34) EmptyString.

Definition body_size : string := "1234".
Definition body_emails : string :=
  "a@x.com" +:+ LF +:+ "b@x.com" +:+ LF +:+ LF.
(** The JSON text of an object with a property named toString. *)
Definition body_own_toString : string :=
  "{" +:+ DQ +:+ "toString" +:+ DQ +:+ ":1}".
Definition body_campaigns : string :=
  "{" +:+ DQ +:+ "campaigns" +:+ DQ +:+ ":[]}".

Definition sent_messages_123 : Client.GetSentMessagesParams :=
  {| Client.email := Some "a@x.com"; Client.userId := None;
     Client.limit := None;
     Client.campaignIds := Some [int 1; int 2; int 3];
     Client.startDateTime := None; Client.endDateTime := None;
     Client.messageMedium := None |}.

Definition request_sse_no_key : Worker.Request :=
  request_to "/sse/message" [("api_key", "")] [].

End Examples.

(** ** The other endpoints of the client ([src/client/iterable.ts]) *)

Module Endpoints.
Import Js Client.

(** [encodeURIComponent]: every byte of the UTF-8 encoding is escaped
    except the letters, the digits and - _ . ! ~ * ' ( ); a string with
    a lone surrogate has no such encoding, and [None] is the [URIError]
    the built-in throws on it. *)
Definition is_uri_unreserved (c : ascii) : bool :=
  is_alnum c
  || Ascii.eqb c "-" || Ascii.eqb c "_" || Ascii.eqb c "." || Ascii.eqb c "!"
  || Ascii.eqb c "~" || Ascii.eqb c "*" || Ascii.eqb c "'" || Ascii.eqb c "("
  || Ascii.eqb c ")".

Definition percent_byte (c : ascii) : string :=
  String "%" (String (hex_digit (code c / 16))
                     (String (hex_digit (code c mod 16)) EmptyString)).

Fixpoint escape_bytes (s : string) : string :=
  match s with
  | EmptyString => EmptyString
  | String c r =>
    (if is_uri_unreserved c then String c EmptyString else percent_byte c)
    +:+ escape_bytes r
  end.

Definition encodeURIComponent (s : string) : option string :=
  if has_lone_surrogate s then None else Some (escape_bytes s).

(** The [options] of a call that only has query parameters. *)
Definition with_params (params : list (string * jsvalue)) : option RequestOptions :=
  Some {| opt_body := JUndefined; opt_params := Some params |}.

Record GetCampaignMetricsParams := {
  campaignId : number;
  metrics_startDateTime : option string;
  metrics_endDateTime : option string;
}.

Record GetChildCampaignsParams := {
  child_id : number;
  child_page : option number;
  child_pageSize : option number;
}.

Record GetTemplatesParams := {
  templateType : option string;
  tpl_messageMedium : option string;
  tpl_startDateTime : option string;
  tpl_endDateTime : option string;
}.

(** The parameters of the four template getters. *)
Record TemplateParams := {
  templateId : number;
  locale : option string;
}.

Record UserEventsByEmailParams := {
  events_email : string;
  events_email_limit : option number;
}.

Record UserEventsByUserIdParams := {
  events_userId : string;
  events_userId_limit : option number;
}.

Record ExperimentMetricsParams := {
  experimentId : number;
}.

Record GetCatalogItemsParams := {
  catalogName : string;
  items_page : option number;
  items_pageSize : option number;
}.

Record GetCatalogItemParams := {
  item_catalogName : string;
  itemId : string;
}.

Section WithFetch.

Variable fetch : string → RequestInit → completion Response.
Variable self : IterableClient.

(** *** Campaigns *)

Definition getCampaign (id : number) : completion jsvalue :=
  request fetch self "GET" ("/api/campaigns/" +:+ Number_toString id) None.

Definition getCampaignMetrics (params : GetCampaignMetricsParams)
  : completion jsvalue :=
  request fetch self "GET" "/api/campaigns/metrics"
    (with_params
       [("campaignId", JNum (campaignId params));
        ("startDateTime", opt_str (metrics_startDateTime params));
        ("endDateTime", opt_str (metrics_endDateTime params))]).

Definition getChildCampaigns (params : GetChildCampaignsParams)
  : completion jsvalue :=
  request fetch self "GET"
    ("/api/campaigns/recurring/" +:+ Number_toString (child_id params)
     +:+ "/childCampaigns")
    (with_params
       [("page", JNum (default (int 1) (child_page params)));
        ("pageSize", JNum (default (int 20) (child_pageSize params)))]).

(** *** Templates *)

Definition getTemplates (params : option GetTemplatesParams) : completion jsvalue :=
  request fetch self "GET" "/api/templates"
    (with_params
       [("templateType", opt_str (params ≫= templateType));
        ("messageMedium", opt_str (params ≫= tpl_messageMedium));
        ("startDateTime", opt_str (params ≫= tpl_startDateTime));
        ("endDateTime", opt_str (params ≫= tpl_endDateTime))]).

Definition template_params (params : TemplateParams) : option RequestOptions :=
  with_params
    [("templateId", JNum (templateId params));
     ("locale", opt_str (locale params))].

Definition getEmailTemplate (params : TemplateParams) : completion jsvalue :=
  request fetch self "GET" "/api/templates/email/get" (template_params params).

Definition getSMSTemplate (params : TemplateParams) : completion jsvalue :=
  request fetch self "GET" "/api/templates/sms/get" (template_params params).

Definition getPushTemplate (params : TemplateParams) : completion jsvalue :=
  request fetch self "GET" "/api/templates/push/get" (template_params params).

Definition getInAppTemplate (params : TemplateParams) : completion jsvalue :=
  request fetch self "GET" "/api/templates/inapp/get" (template_params params).

Definition getTemplateByClientId (clientTemplateId : string) : completion jsvalue :=
  request fetch self "GET" "/api/templates/getByClientTemplateId"
    (with_params [("clientTemplateId", JStr clientTemplateId)]).

(** *** Users *)

Definition getUserByEmail (email : string) : completion jsvalue :=
  match encodeURIComponent email with
  | Some segment => request fetch self "GET" ("/api/users/" +:+ segment) None
  | None => Throw URIError_malformed
  end.

Definition getUserByUserId (userId : string) : completion jsvalue :=
  match encodeURIComponent userId with
  | Some segment =>
    request fetch self "GET" ("/api/users/byUserId/" +:+ segment) None
  | None => Throw URIError_malformed
  end.

Definition getUserFields : completion jsvalue :=
  request fetch self "GET" "/api/users/getFields" None.

(** *** Lists, channels *)

Definition getLists : completion jsvalue :=
  request fetch self "GET" "/api/lists" None.

Definition getChannels : completion jsvalue :=
  request fetch self "GET" "/api/channels" None.

Definition getMessageTypes : completion jsvalue :=
  request fetch self "GET" "/api/messageTypes" None.

(** *** Events *)

Definition getUserEventsByEmail (params : UserEventsByEmailParams)
  : completion jsvalue :=
  request fetch self "GET" "/api/events"
    (with_params
       [("email", JStr (events_email params));
        ("limit", opt_num (events_email_limit params))]).

Definition getUserEventsByUserId (params : UserEventsByUserIdParams)
  : completion jsvalue :=
  request fetch self "GET" "/api/events"
    (with_params
       [("userId", JStr (events_userId params));
        ("limit", opt_num (events_userId_limit params))]).

(** *** Journeys, experiments, webhooks, snippets *)

Definition getJourneys : completion jsvalue :=
  request fetch self "GET" "/api/journeys" None.

Definition getExperimentMetrics (params : ExperimentMetricsParams)
  : completion jsvalue :=
  request fetch self "GET"
    ("/api/experiments/metrics/" +:+ Number_toString (experimentId params)) None.

Definition getWebhooks : completion jsvalue :=
  request fetch self "GET" "/api/webhooks" None.

Definition getSnippets : completion jsvalue :=
  request fetch self "GET" "/api/snippets" None.

Definition getSnippet (id : number) : completion jsvalue :=
  request fetch self "GET" ("/api/snippets/" +:+ Number_toString id) None.

(** *** Catalogs *)

Definition getCatalogs : completion jsvalue :=
  request fetch self "GET" "/api/catalogs" None.

Definition getCatalogItems (params : GetCatalogItemsParams) : completion jsvalue :=
  request fetch self "GET"
    ("/api/catalogs/" +:+ catalogName params +:+ "/items")
    (with_params
       [("page", opt_num (items_page params));
        ("pageSize", opt_num (items_pageSize params))]).

Definition getCatalogItem (params : GetCatalogItemParams) : completion jsvalue :=
  request fetch self "GET"
    ("/api/catalogs/" +:+ item_catalogName params +:+ "/items/"
     +:+ itemId params) None.

End WithFetch.

End Endpoints.

(** ** The agent ([src/index.ts], [IterableMcpAgent])

    The server is the list of the names of its tools, in the order they
    were registered.  A call of a tool is the tool with the parameters its
    schema admits; the agent's environment is the one the transport was
    given. *)

Module Agent.
Import Js Client Endpoints.

(** [this.server.tool(name, ...)] *)
Definition tool (name : string) (server : list string) : list string :=
  server ++ [name].

(** [if (isToolAllowed(name, config)) this.server.tool(name, ...)] *)
Definition tool_if_allowed (config : McpServerConfig) (name : string)
  (server : list string) : list string :=
  if Filter.isToolAllowed name config then tool name server else server.

Definition init_with (config : McpServerConfig) : list string :=
  let server := [] in
  (* Campaign tools *)
  let server := tool_if_allowed config "get_campaigns" server in
  let server := tool_if_allowed config "get_campaign" server in
  let server := tool_if_allowed config "get_campaign_metrics" server in
  let server := tool_if_allowed config "get_child_campaigns" server in
  (* Template tools *)
  let server := tool_if_allowed config "get_templates" server in
  let server := tool_if_allowed config "get_email_template" server in
  let server := tool_if_allowed config "get_sms_template" server in
  let server := tool_if_allowed config "get_push_template" server in
  let server := tool_if_allowed config "get_inapp_template" server in
  let server := tool_if_allowed config "get_template_by_client_id" server in
  (* User tools *)
  let server := tool_if_allowed config "get_user_by_email" server in
  let server := tool_if_allowed config "get_user_by_user_id" server in
  let server := tool_if_allowed config "get_user_fields" server in
  let server := tool_if_allowed config "get_sent_messages" server in
  let server := tool_if_allowed config "get_user_events_by_email" server in
  let server := tool_if_allowed config "get_user_events_by_user_id" server in
  (* List tools *)
  let server := tool_if_allowed config "get_lists" server in
  let server := tool_if_allowed config "get_list_size" server in
  let server := tool_if_allowed config "get_list_users" server in
  (* Channel tools *)
  let server := tool_if_allowed config "get_channels" server in
  let server := tool_if_allowed config "get_message_types" server in
  (* Journey tools *)
  let server := tool_if_allowed config "get_journeys" server in
  (* Experiment tools *)
  let server := tool_if_allowed config "get_experiment_metrics" server in
  (* Webhook tools *)
  let server := tool_if_allowed config "get_webhooks" server in
  (* Snippet tools *)
  let server := tool_if_allowed config "get_snippets" server in
  let server := tool_if_allowed config "get_snippet" server in
  (* Catalog tools *)
  let server := tool_if_allowed config "get_catalogs" server in
  let server := tool_if_allowed config "get_catalog_items" server in
  let server := tool_if_allowed config "get_catalog_item" server in
  server.

(** [init]: the tools of the server for an environment. *)
Definition init (env : Worker.Env) : list string :=
  init_with (Worker.parseConfig env).

(** A call of a tool, with the parameters its handler receives. *)
Inductive tool_call :=
| get_campaigns (params : GetCampaignsParams)
| get_campaign (id : number)
| get_campaign_metrics (params : GetCampaignMetricsParams)
| get_child_campaigns (params : GetChildCampaignsParams)
| get_templates (params : GetTemplatesParams)
| get_email_template (params : TemplateParams)
| get_sms_template (params : TemplateParams)
| get_push_template (params : TemplateParams)
| get_inapp_template (params : TemplateParams)
| get_template_by_client_id (clientTemplateId : string)
| get_user_by_email (email : string)
| get_user_by_user_id (userId : string)
| get_user_fields
| get_sent_messages (params : GetSentMessagesParams)
| get_user_events_by_email (params : UserEventsByEmailParams)
| get_user_events_by_user_id (params : UserEventsByUserIdParams)
| get_lists
| get_list_size (listId : number)
| get_list_users (params : GetListUsersParams)
| get_channels
| get_message_types
| get_journeys
| get_experiment_metrics (params : ExperimentMetricsParams)
| get_webhooks
| get_snippets
| get_snippet (id : number)
| get_catalogs
| get_catalog_items (params : GetCatalogItemsParams)
| get_catalog_item (params : GetCatalogItemParams).

(** The name a call is registered under. *)
Definition tool_name (call : tool_call) : string :=
  match call with
  | get_campaigns _ => "get_campaigns"
  | get_campaign _ => "get_campaign"
  | get_campaign_metrics _ => "get_campaign_metrics"
  | get_child_campaigns _ => "get_child_campaigns"
  | get_templates _ => "get_templates"
  | get_email_template _ => "get_email_template"
  | get_sms_template _ => "get_sms_template"
  | get_push_template _ => "get_push_template"
  | get_inapp_template _ => "get_inapp_template"
  | get_template_by_client_id _ => "get_template_by_client_id"
  | get_user_by_email _ => "get_user_by_email"
  | get_user_by_user_id _ => "get_user_by_user_id"
  | get_user_fields => "get_user_fields"
  | get_sent_messages _ => "get_sent_messages"
  | get_user_events_by_email _ => "get_user_events_by_email"
  | get_user_events_by_user_id _ => "get_user_events_by_user_id"
  | get_lists => "get_lists"
  | get_list_size _ => "get_list_size"
  | get_list_users _ => "get_list_users"
  | get_channels => "get_channels"
  | get_message_types => "get_message_types"
  | get_journeys => "get_journeys"
  | get_experiment_metrics _ => "get_experiment_metrics"
  | get_webhooks => "get_webhooks"
  | get_snippets => "get_snippets"
  | get_snippet _ => "get_snippet"
  | get_catalogs => "get_catalogs"
  | get_catalog_items _ => "get_catalog_items"
  | get_catalog_item _ => "get_catalog_item"
  end.

(** The text of a content item: [JSON.stringify(result, null, 2)], kept
    symbolic, or the result itself. *)
Inductive content_text :=
| Pretty (result : jsvalue)
| Verbatim (result : jsvalue).

Record ContentItem := {
  item_type : string;
  item_text : content_text;
}.

Record ToolResult := {
  content : list ContentItem;
}.

(** What a handler returns for the result of the client: one text item;
    a rejection of the client is not caught. *)
Definition text_result (wrap : jsvalue → content_text)
  (result : completion jsvalue) : completion ToolResult :=
  match result with
  | Return v => Return {| content := [{| item_type := "text"; item_text := wrap v |}] |}
  | Throw t => Throw t
  end.

Section WithFetch.

Variable fetch : string → RequestInit → completion Response.

(** The handler of each tool. *)
Definition handle (env : Worker.Env) (call : tool_call) : completion ToolResult :=
  let client := Worker.getClient env in
  match call with
  | get_campaigns params =>
    text_result Pretty (getCampaigns fetch client (Some params))
  | get_campaign id => text_result Pretty (getCampaign fetch client id)
  | get_campaign_metrics params =>
    text_result Verbatim (getCampaignMetrics fetch client params)
  | get_child_campaigns params =>
    text_result Pretty (getChildCampaigns fetch client params)
  | get_templates params =>
    text_result Pretty (getTemplates fetch client (Some params))
  | get_email_template params =>
    text_result Pretty (getEmailTemplate fetch client params)
  | get_sms_template params =>
    text_result Pretty (getSMSTemplate fetch client params)
  | get_push_template params =>
    text_result Pretty (getPushTemplate fetch client params)
  | get_inapp_template params =>
    text_result Pretty (getInAppTemplate fetch client params)
  | get_template_by_client_id clientTemplateId =>
    text_result Pretty (getTemplateByClientId fetch client clientTemplateId)
  | get_user_by_email email =>
    text_result Pretty (getUserByEmail fetch client email)
  | get_user_by_user_id userId =>
    text_result Pretty (getUserByUserId fetch client userId)
  | get_user_fields => text_result Pretty (getUserFields fetch client)
  | get_sent_messages params =>
    text_result Pretty (getSentMessages fetch client params)
  | get_user_events_by_email params =>
    text_result Pretty (getUserEventsByEmail fetch client params)
  | get_user_events_by_user_id params =>
    text_result Pretty (getUserEventsByUserId fetch client params)
  | get_lists => text_result Pretty (getLists fetch client)
  | get_list_size listId => text_result Pretty (getListSize fetch client listId)
  | get_list_users params => text_result Pretty (getListUsers fetch client params)
  | get_channels => text_result Pretty (getChannels fetch client)
  | get_message_types => text_result Pretty (getMessageTypes fetch client)
  | get_journeys => text_result Pretty (getJourneys fetch client)
  | get_experiment_metrics params =>
    text_result Pretty (getExperimentMetrics fetch client params)
  | get_webhooks => text_result Pretty (getWebhooks fetch client)
  | get_snippets => text_result Pretty (getSnippets fetch client)
  | get_snippet id => text_result Pretty (getSnippet fetch client id)
  | get_catalogs => text_result Pretty (getCatalogs fetch client)
  | get_catalog_items params =>
    text_result Pretty (getCatalogItems fetch client params)
  | get_catalog_item params =>
    text_result Pretty (getCatalogItem fetch client params)
  end.

End WithFetch.

End Agent.

(** ** Shapes of text the statements below speak of *)

Module Shapes.
Import Js.

(** The characters that would end or split a path segment. *)
Definition is_delimiter (c : ascii) : bool :=
  Ascii.eqb c "/" || Ascii.eqb c "?" || Ascii.eqb c "#" || Ascii.eqb c "&"
  || Ascii.eqb c " ".

(** A printable ASCII character that is neither a space nor a double
    quote. *)
Definition is_address_char (c : ascii) : bool :=
  in_range 33 126 c && negb (Ascii.eqb c (chr 34)).

(** An address: such characters only, with an at sign among them. *)
Definition is_address (s : string) : bool :=
  forallb is_address_char (list_ascii_of_string s)
  && existsb (Ascii.eqb "@") (list_ascii_of_string s).

(** One line per string, each ended by a line feed. *)
Fixpoint lines (l : list string) : string :=
  match l with
  | [] => EmptyString
  | e :: r => e +:+ String "010" (lines r)
  end.

(** The lexer of [JSON.parse] is not inside a string literal, and the
    rest of a keyword it waits for has no at sign. *)
Definition outside_string (m : lexmode) : bool :=
  match m with
  | LStr _ _ => false
  | LWord rest _ => negb (existsb (Ascii.eqb "@") (list_ascii_of_string rest))
  | LIdle | LNum _ _ => true
  end.

End Shapes.

(** ** More concrete inputs *)

Module Inputs.
Import Js.

(** An environment whose PII flag is spelled in upper case. *)
Definition env_upper_case_flags : Worker.Env :=
  {| Worker.ITERABLE_API_KEY := None;
     Worker.ITERABLE_API_BASE_URL := None;
     Worker.ITERABLE_USER_PII := "TRUE";
     Worker.ITERABLE_ENABLE_WRITES := "true";
     Worker.ITERABLE_ENABLE_SENDS := "true" |}.

(** A network that lets through only GET without a body at a URL under
    [base]/api/, and fails on everything else. *)
Definition fetch_guarded (base : string)
  (inner : string → Client.RequestInit → Client.completion Client.Response)
  : string → Client.RequestInit → Client.completion Client.Response :=
  fun url init =>
    if String.prefix (base +:+ "/api/") url
       && String.eqb (Client.method init) "GET"
       && match Client.init_body init with None => true | Some _ => false end
    then inner url init
    else Client.Throw (Client.ThrownError "blocked").

(** A request to the root, with keys in the query string and the header. *)
Definition request_root_with_keys : Worker.Request :=
  Examples.request_to "/" [("api_key", "query-key")]
    [("X-Iterable-Api-Key", "header-key")].

Definition request_root : Worker.Request := Examples.request_to "/" [] [].

End Inputs.

(* ================================================================== *)
(** * The number model *)

Section NumberModel.
Import Js.

(** With enough fuel [strip_zeros] ends on digits without trailing zero,
    and the number is the same. *)
Lemma strip_zeros_spec (fuel : nat) (m e : Z) :
  (Z.abs m < 2 ^ Z.of_nat fuel)%Z →
  ∃ k, (0 ≤ k)%Z
       ∧ (m = fst (strip_zeros fuel m e) * 10 ^ k)%Z
       ∧ (fst (strip_zeros fuel m e) ≠ 0 → snd (strip_zeros fuel m e) = e + k)%Z
       ∧ (fst (strip_zeros fuel m e) = 0
          ∨ fst (strip_zeros fuel m e) mod 10 ≠ 0)%Z.
Proof.
  revert m e. induction fuel as [|fuel IH]; intros m e Hm.
  - exists 0%Z. simpl in *. assert (m = 0)%Z by lia. subst m.
    refine (conj _ (conj _ (conj _ _))); try lia; auto.
  - cbn [strip_zeros].
    destruct (Z.eqb_spec m 0) as [-> | Hm0].
    { exists 0%Z. simpl.
      refine (conj _ (conj _ (conj _ _))); try lia; auto. }
    destruct (Z.eqb_spec (m mod 10) 0) as [Hmod | Hmod].
    + assert (Hdiv : (m = 10 * (m / 10))%Z).
      { rewrite (Z.div_mod m 10) at 1 by lia. lia. }
      assert (Hlt : (Z.abs (m / 10) < 2 ^ Z.of_nat fuel)%Z).
      { rewrite Nat2Z.inj_succ, Z.pow_succ_r in Hm by lia. lia. }
      destruct (IH (m / 10)%Z (e + 1)%Z Hlt) as (k & Hk & Hv & Hnz & Hn).
      exists (k + 1)%Z.
      refine (conj _ (conj _ (conj _ Hn))).
      * lia.
      * rewrite Z.pow_add_r by lia. rewrite Hdiv at 1. rewrite Hv at 1. lia.
      * intros H. rewrite (Hnz H). lia.
    + exists 0%Z. simpl.
      refine (conj _ (conj _ (conj _ _))); try lia; auto.
Qed.

(** The fuel of [normalize] is enough. *)
Lemma normalize_spec (m e : Z) :
  ∃ k, (0 ≤ k)%Z
       ∧ (m = fst (normalize m e) * 10 ^ k)%Z
       ∧ (fst (normalize m e) ≠ 0 → snd (normalize m e) = e + k)%Z
       ∧ (fst (normalize m e) = 0 ∨ fst (normalize m e) mod 10 ≠ 0)%Z.
Proof.
  unfold normalize.
  apply strip_zeros_spec.
  rewrite Nat2Z.inj_succ, Z2Nat.id by apply Z.log2_nonneg.
  destruct (Z.eq_dec m 0%Z) as [-> | Hm]; [reflexivity |].
  apply Z.log2_spec. lia.
Qed.

End NumberModel.

(* ================================================================== *)
(** * Properties of the tool filter *)

(** Membership of a given name in one of the three sets, by evaluation. *)
Ltac by_membership :=
  first [apply (bool_decide_eq_false_1 _) | apply (bool_decide_eq_true_1 _)];
  vm_compute; reflexivity.

Section FilterProperties.
Import Filter.

Lemma has_true s x : has s x = true ↔ x ∈ s.
Proof. unfold has. apply bool_decide_eq_true. Qed.

Lemma has_false s x : has s x = false ↔ x ∉ s.
Proof. unfold has. apply bool_decide_eq_false. Qed.

(** The evaluator as one boolean formula: each gate passes when its flag
    is set or the name is on the right side of its set. *)
Lemma isToolAllowed_formula n c :
  isToolAllowed n c =
  (allowUserPii c || has NON_PII_TOOLS n)
  && (allowWrites c || has READ_ONLY_TOOLS n)
  && (allowSends c || negb (has SEND_TOOLS n)).
Proof.
  unfold isToolAllowed.
  destruct (allowUserPii c), (allowWrites c), (allowSends c),
    (has NON_PII_TOOLS n), (has READ_ONLY_TOOLS n), (has SEND_TOOLS n);
    reflexivity.
Qed.

(** A name on neither safe-list is denied as soon as one of the two
    safe-list gates is closed. *)
Lemma unlisted_denied n c :
  n ∉ NON_PII_TOOLS → n ∉ READ_ONLY_TOOLS →
  allowUserPii c = false ∨ allowWrites c = false →
  isToolAllowed n c = false.
Proof.
  intros Hp%has_false Hr%has_false Hc.
  rewrite isToolAllowed_formula, Hp, Hr.
  destruct Hc as [-> | ->]; simpl.
  - reflexivity.
  - now rewrite orb_false_r, andb_false_r.
Qed.

(** A name in none of the three sets is allowed exactly when both the PII
    flag and the write flag are set; the send flag plays no part. *)
Lemma unlisted_allowed_iff n c :
  n ∉ NON_PII_TOOLS → n ∉ READ_ONLY_TOOLS → n ∉ SEND_TOOLS →
  isToolAllowed n c = allowUserPii c && allowWrites c.
Proof.
  intros Hp%has_false Hr%has_false Hs%has_false.
  rewrite isToolAllowed_formula, Hp, Hr, Hs.
  destruct (allowUserPii c), (allowWrites c), (allowSends c); reflexivity.
Qed.

Lemma empty_name_unlisted :
  ("" ∉ NON_PII_TOOLS) ∧ ("" ∉ READ_ONLY_TOOLS) ∧ ("" ∉ SEND_TOOLS).
Proof. repeat split; by_membership. Qed.

Lemma unknown_name_unlisted :
  ("totally_unknown_tool" ∉ NON_PII_TOOLS)
  ∧ ("totally_unknown_tool" ∉ READ_ONLY_TOOLS)
  ∧ ("totally_unknown_tool" ∉ SEND_TOOLS).
Proof. repeat split; by_membership. Qed.

End FilterProperties.

Section FilterClaims.
Import Filter.

(** C1 (as amended): for every configuration in which [allowUserPii] or
    [allowWrites] is false, the empty name and "totally_unknown_tool" are
    denied, and so is every name that is in none of the three sets. *)
Theorem C1_default_deny (c : McpServerConfig) :
  allowUserPii c = false ∨ allowWrites c = false →
  isToolAllowed "" c = false
  ∧ isToolAllowed "totally_unknown_tool" c = false
  ∧ (∀ n, n ∉ NON_PII_TOOLS → n ∉ READ_ONLY_TOOLS → n ∉ SEND_TOOLS →
          isToolAllowed n c = false).
Proof.
  intros Hc.
  destruct empty_name_unlisted as (He1 & He2 & _).
  destruct unknown_name_unlisted as (Hu1 & Hu2 & _).
  split; [| split].
  - now apply unlisted_denied.
  - now apply unlisted_denied.
  - intros n Hp Hr _. now apply unlisted_denied.
Qed.

Lemma C1_default_deny_witness :
  let c := {| allowUserPii := false; allowWrites := false; allowSends := false |} in
  (allowUserPii c = false ∨ allowWrites c = false)
  ∧ isToolAllowed "" c = false
  ∧ isToolAllowed "totally_unknown_tool" c = false.
Proof.
  intros c.
  assert (H : allowUserPii c = false ∨ allowWrites c = false) by (left; reflexivity).
  destruct (C1_default_deny c H) as (H1 & H2 & _).
  exact (conj H (conj H1 H2)).
Defined.

(** C1 as stated fails: with the PII flag and the write flag set, the
    empty name and the unknown name are allowed, whatever the send flag. *)
Lemma C1_counterexample :
  isToolAllowed ""
    {| allowUserPii := true; allowWrites := true; allowSends := false |} = true
  ∧ isToolAllowed "totally_unknown_tool"
    {| allowUserPii := true; allowWrites := true; allowSends := false |} = true.
Proof.
  destruct empty_name_unlisted as (He1 & He2 & He3).
  destruct unknown_name_unlisted as (Hu1 & Hu2 & Hu3).
  split; rewrite unlisted_allowed_iff by assumption; reflexivity.
Qed.

(** C2: a tool is allowed exactly when it has no blocked reason. *)
Theorem C2_allowed_iff_no_reason (n : string) (c : McpServerConfig) :
  isToolAllowed n c = true ↔ getBlockedReason n c = None.
Proof.
  unfold isToolAllowed, getBlockedReason.
  destruct (negb (allowUserPii c) && negb (has NON_PII_TOOLS n));
    [split; discriminate |].
  destruct (negb (allowWrites c) && negb (has READ_ONLY_TOOLS n));
    [split; discriminate |].
  destruct (negb (allowSends c) && has SEND_TOOLS n);
    [split; discriminate |].
  split; reflexivity.
Qed.

(** C3: with the three flags false, a name outside NON_PII_TOOLS, outside
    READ_ONLY_TOOLS and inside SEND_TOOLS gets the PII reason, which is
    neither the write reason nor the send reason. *)
Theorem C3_pii_reason_first (n : string) :
  n ∉ NON_PII_TOOLS → n ∉ READ_ONLY_TOOLS → n ∈ SEND_TOOLS →
  getBlockedReason n
    {| allowUserPii := false; allowWrites := false; allowSends := false |}
  = Some PII_REASON
  ∧ PII_REASON ≠ WRITE_REASON ∧ PII_REASON ≠ SEND_REASON.
Proof.
  intros Hp%has_false _ _.
  unfold getBlockedReason; simpl. rewrite Hp; simpl.
  repeat split; discriminate.
Qed.

Lemma C3_pii_reason_first_witness :
  ("send_email" ∉ NON_PII_TOOLS)
  ∧ ("send_email" ∉ READ_ONLY_TOOLS)
  ∧ ("send_email" ∈ SEND_TOOLS)
  ∧ getBlockedReason "send_email"
      {| allowUserPii := false; allowWrites := false; allowSends := false |}
    = Some PII_REASON.
Proof.
  assert (H1 : "send_email" ∉ NON_PII_TOOLS) by by_membership.
  assert (H2 : "send_email" ∉ READ_ONLY_TOOLS) by by_membership.
  assert (H3 : "send_email" ∈ SEND_TOOLS) by by_membership.
  exact (conj H1 (conj H2 (conj H3 (proj1 (C3_pii_reason_first _ H1 H2 H3))))).
Defined.

(** C4: raising flags never revokes a tool. *)
Theorem C4_monotone (n : string) (c1 c2 : McpServerConfig) :
  (allowUserPii c1 = true → allowUserPii c2 = true) →
  (allowWrites c1 = true → allowWrites c2 = true) →
  (allowSends c1 = true → allowSends c2 = true) →
  isToolAllowed n c1 = true → isToolAllowed n c2 = true.
Proof.
  rewrite !isToolAllowed_formula.
  destruct (allowUserPii c1), (allowWrites c1), (allowSends c1);
    intros Hp Hw Hs;
    try rewrite (Hp eq_refl); try rewrite (Hw eq_refl); try rewrite (Hs eq_refl);
    destruct (allowUserPii c2), (allowWrites c2), (allowSends c2),
      (has NON_PII_TOOLS n), (has READ_ONLY_TOOLS n), (has SEND_TOOLS n);
    simpl; intros H; try reflexivity; try discriminate.
Qed.

Lemma C4_monotone_witness :
  let c1 := {| allowUserPii := false; allowWrites := false; allowSends := false |} in
  let c2 := {| allowUserPii := true; allowWrites := false; allowSends := true |} in
  isToolAllowed "get_campaigns" c1 = true
  ∧ isToolAllowed "get_campaigns" c2 = true.
Proof.
  intros c1 c2.
  assert (H : isToolAllowed "get_campaigns" c1 = true) by (vm_compute; reflexivity).
  refine (conj H (C4_monotone "get_campaigns" c1 c2 _ _ _ H));
    simpl; intros; (reflexivity || discriminate).
Defined.

End FilterClaims.

(* ================================================================== *)
(** * Properties of the worker entry point *)

Section WorkerClaims.
Import Js Worker Examples.

Lemma or_else_truthy a b : falsy a = false → or_else a b = a.
Proof. destruct a as [[|c s]|]; simpl; intros H; (discriminate || reflexivity). Qed.

Lemma or_else_falsy a b : falsy a = true → or_else a b = b.
Proof. destruct a as [[|c s]|]; simpl; intros H; (discriminate || reflexivity). Qed.

Lemma falsy_or_else a b : falsy (or_else a b) = falsy a && falsy b.
Proof. destruct a as [[|c s]|]; reflexivity. Qed.

(** The key is missing exactly when each of the three sources is. *)
Lemma falsy_resolve_apiKey request env :
  falsy (resolve_apiKey request env)
  = falsy (get "api_key" (searchParams (url request)))
    && falsy (Headers_get "X-Iterable-Api-Key" (headers request))
    && falsy (ITERABLE_API_KEY env).
Proof. unfold resolve_apiKey. now rewrite !falsy_or_else. Qed.

(** When [fetch] hands the request to a transport, the key is present
    and the environment carries it. *)
Lemma fetch_serves request env p r e :
  fetch request env = ServeSSE p r e ∨ fetch request env = ServeMcp p r e →
  falsy (resolve_apiKey request env) = false
  ∧ ITERABLE_API_KEY e = resolve_apiKey request env.
Proof.
  unfold fetch.
  destruct (falsy (resolve_apiKey request env));
    destruct (String.eqb (pathname (url request)) "/mcp");
    destruct (String.eqb (pathname (url request)) "/sse");
    destruct (String.eqb (pathname (url request)) "/sse/message");
    simpl; intros [H | H]; try discriminate H;
    inversion H; subst; simpl; auto.
Qed.

(** C5: the key [fetch] resolves is the key of the query string when
    that is not empty; without it the key of the header when that is not
    empty; and without both the default of the environment.  It is the
    key the entry point passes on: on /mcp, /sse and /sse/message [fetch]
    hands the request to the transport with an environment whose key is
    that one. *)
Theorem C5_credential_precedence (request : Request) (env : Env) :
  let query := get "api_key" (searchParams (url request)) in
  let header := Headers_get "X-Iterable-Api-Key" (headers request) in
  let fallback := ITERABLE_API_KEY env in
  let envWithKey key :=
    {| ITERABLE_API_KEY := key;
       ITERABLE_API_BASE_URL := ITERABLE_API_BASE_URL env;
       ITERABLE_USER_PII := ITERABLE_USER_PII env;
       ITERABLE_ENABLE_WRITES := ITERABLE_ENABLE_WRITES env;
       ITERABLE_ENABLE_SENDS := ITERABLE_ENABLE_SENDS env |} in
  let served key :=
    (pathname (url request) = "/mcp" →
     fetch request env = ServeMcp "/mcp" request (envWithKey key))
    ∧ (pathname (url request) = "/sse"
       ∨ pathname (url request) = "/sse/message" →
       fetch request env = ServeSSE "/sse" request (envWithKey key)) in
  (falsy query = false →
   resolve_apiKey request env = query ∧ served query)
  ∧ (falsy query = true → falsy header = false →
     resolve_apiKey request env = header ∧ served header)
  ∧ (falsy query = true → falsy header = true →
     resolve_apiKey request env = fallback
     ∧ (falsy fallback = false → served fallback)).
Proof.
  intros query header fallback envWithKey served.
  assert (Hserved : ∀ key, resolve_apiKey request env = key →
                           falsy key = false → served key).
  { intros key Hres Hkey. unfold served, envWithKey, fetch.
    rewrite Hres, Hkey. simpl. split.
    - intros ->. reflexivity.
    - intros [-> | ->]; reflexivity. }
  assert (Hq : falsy query = false → resolve_apiKey request env = query).
  { intros Hq. unfold resolve_apiKey. fold query header.
    rewrite (or_else_truthy query header Hq). now apply or_else_truthy. }
  assert (Hh : falsy query = true → falsy header = false →
               resolve_apiKey request env = header).
  { intros Hq' Hh. unfold resolve_apiKey. fold query header.
    rewrite (or_else_falsy query header Hq'). now apply or_else_truthy. }
  assert (He : falsy query = true → falsy header = true →
               resolve_apiKey request env = fallback).
  { intros Hq' Hh'. unfold resolve_apiKey. fold query header.
    rewrite (or_else_falsy query header Hq'). now apply or_else_falsy. }
  refine (conj _ (conj _ _)).
  - intros H. exact (conj (Hq H) (Hserved _ (Hq H) H)).
  - intros H H'. exact (conj (Hh H H') (Hserved _ (Hh H H') H')).
  - intros H H'. refine (conj (He H H') _).
    intros H''. exact (Hserved _ (He H H') H'').
Qed.

Lemma C5_credential_precedence_witness :
  fetch request_all_three env_with_default
  = ServeMcp "/mcp" request_all_three (env_with_key "query-key")
  ∧ fetch request_header_only env_with_default
    = ServeMcp "/mcp" request_header_only (env_with_key "header-key")
  ∧ fetch request_empty_query env_with_default
    = ServeMcp "/mcp" request_empty_query (env_with_key "header-key")
  ∧ fetch request_bare env_with_default
    = ServeMcp "/mcp" request_bare (env_with_key "env-key").
Proof.
  refine (conj _ (conj _ (conj _ _))).
  - exact (proj1 (proj2 (proj1
             (C5_credential_precedence request_all_three env_with_default)
             eq_refl)) eq_refl).
  - exact (proj1 (proj2 (proj1 (proj2
             (C5_credential_precedence request_header_only env_with_default))
             eq_refl eq_refl)) eq_refl).
  - exact (proj1 (proj2 (proj1 (proj2
             (C5_credential_precedence request_empty_query env_with_default))
             eq_refl eq_refl)) eq_refl).
  - exact (proj1 (proj2 (proj2 (proj2
             (C5_credential_precedence request_bare env_with_default))
             eq_refl eq_refl) eq_refl) eq_refl).
Defined.

(** C6: when none of the three sources gives a key and the route is
    /mcp, /sse or /sse/message, [fetch] answers 401 itself; and whenever
    it hands a request to a transport, the environment it passes carries a
    key that is not empty, which is the key of the client the agent makes
    from it. *)
Theorem C6_auth_required (request : Request) (env : Env) :
  (falsy (get "api_key" (searchParams (url request))) = true →
   falsy (Headers_get "X-Iterable-Api-Key" (headers request)) = true →
   falsy (ITERABLE_API_KEY env) = true →
   pathname (url request) = "/mcp" ∨ pathname (url request) = "/sse"
   ∨ pathname (url request) = "/sse/message" →
   ∃ r, fetch request env = Respond r ∧ status r = 401%Z)
  ∧ (∀ p r e,
       fetch request env = ServeSSE p r e ∨ fetch request env = ServeMcp p r e →
       ∃ key, ITERABLE_API_KEY e = Some key ∧ nonempty key = true
              ∧ Client.apiKey (getClient e) = key).
Proof.
  split.
  - intros Hq Hh He Hp.
    assert (Hk : falsy (resolve_apiKey request env) = true)
      by (rewrite falsy_resolve_apiKey, Hq, Hh, He; reflexivity).
    unfold fetch. rewrite Hk.
    destruct Hp as [-> | [-> | ->]]; simpl; eexists; split; reflexivity.
  - intros p r e H. apply fetch_serves in H as (Hk & He).
    unfold getClient. rewrite He.
    destruct (resolve_apiKey request env) as [[|c s]|]; try discriminate Hk.
    eexists; repeat split; reflexivity.
Qed.

Lemma C6_auth_required_witness :
  ∃ r, fetch request_sse_no_key env_without_default = Respond r
       ∧ status r = 401%Z.
Proof.
  apply (proj1 (C6_auth_required request_sse_no_key env_without_default));
    try reflexivity.
  right; right; reflexivity.
Defined.

End WorkerClaims.

(* ================================================================== *)
(** * Properties of the API client *)

Section ClientClaims.
Import Js Client Examples.

Lemma append_assoc (a b c : string) : (a +:+ b) +:+ c = a +:+ b +:+ c.
Proof.
  induction a as [|x a IH]; [reflexivity | exact (f_equal (String x) IH)].
Qed.

Lemma append_empty_r (a : string) : a +:+ "" = a.
Proof.
  induction a as [|x a IH]; [reflexivity | exact (f_equal (String x) IH)].
Qed.

Lemma nonempty_append_r (a b : string) :
  nonempty b = true → nonempty (a +:+ b) = true.
Proof. destruct a; [exact (fun H => H) | reflexivity]. Qed.

(** Joining two lists of strings, the second one not empty. *)
Lemma concat_app (sep : string) (l1 l2 : list string) :
  l2 ≠ [] →
  String.concat sep (l1 ++ l2)
  = (match l1 with [] => "" | _ => String.concat sep l1 +:+ sep end)
    +:+ String.concat sep l2.
Proof.
  intros Hl2. induction l1 as [|x [|y l1] IH].
  - reflexivity.
  - destruct l2 as [|z l2]; [contradiction |]. simpl.
    now rewrite append_assoc.
  - change (String.concat sep ((x :: y :: l1) ++ l2))
      with (x +:+ sep +:+ String.concat sep ((y :: l1) ++ l2)).
    rewrite IH.
    change (String.concat sep (x :: y :: l1))
      with (x +:+ sep +:+ String.concat sep (y :: l1)).
    now rewrite !append_assoc.
Qed.

Lemma filter_idem {A} (f : A → bool) (l : list A) :
  List.filter f (List.filter f l) = List.filter f l.
Proof.
  induction l as [|x l IH]; [reflexivity |].
  simpl. destruct (f x) eqn:Hx; simpl; rewrite ?Hx, IH; reflexivity.
Qed.

(** The loop over the entries, as a filter and a map. *)
Lemma append_defined_spec (acc : URLSearchParams) (entries : list (string * jsvalue)) :
  append_defined acc entries
  = acc ++ map (fun e => (fst e, ToString (snd e)))
             (List.filter (fun e => negb (is_undefined (snd e))) entries).
Proof.
  unfold append_defined. revert acc.
  induction entries as [|e entries IH]; intros acc; simpl.
  - now rewrite app_nil_r.
  - rewrite IH. destruct (is_undefined (snd e)); simpl; [reflexivity |].
    unfold append. now rewrite <- app_assoc.
Qed.

Lemma fold_append_spec (name : string) (f : number → string)
  (ids : list number) (acc : URLSearchParams) :
  fold_left (fun sp id => append name (f id) sp) ids acc
  = acc ++ map (fun id => (name, f id)) ids.
Proof.
  revert acc. induction ids as [|id ids IH]; intros acc; simpl.
  - now rewrite app_nil_r.
  - rewrite IH. unfold append. now rewrite <- app_assoc.
Qed.

Variable fetch : string → RequestInit → completion Response.

(** What [request] returns once the network gave a response that is ok. *)
Lemma request_ok self method path options response body :
  fetch (request_url self path options) (request_init self method options)
  = Return response →
  ok response = true → text response = Return body →
  request fetch self method path options
  = if nonempty body then
      match JSON_parse body with
      | Some v => Return v
      | None => Return (JStr body)
      end
    else Return (JObj ∅).
Proof.
  intros Hf Hok Ht. unfold request, request_try.
  rewrite Hf, Hok, Ht. simpl.
  destruct (nonempty body); [destruct (JSON_parse body) |]; reflexivity.
Qed.

(** C7: a response that is not ok makes [request] throw an
    [IterableApiError] with the status, the status text and the body text
    of the response (404 with a 404); a failure of the network call that
    is an [Error] or another value makes it throw one with status 0 and
    "Network Error"; and an [IterableApiError] thrown inside the [try] is
    the error [request] throws. *)
Theorem C7_error_classification (self : IterableClient) (method path : string)
  (options : option RequestOptions) :
  let url := request_url self path options in
  let init := request_init self method options in
  (∀ response, fetch url init = Return response → ok response = false →
     request fetch self method path options
     = Throw (ThrownApiError
                {| status := resp_status response;
                   statusText := resp_statusText response;
                   body := JStr (match text response with
                                 | Return s => s
                                 | Throw _ => ""
                                 end) |}))
  ∧ (∀ msg, fetch url init = Throw (ThrownError msg) →
       request fetch self method path options
       = Throw (ThrownApiError
                  {| status := 0; statusText := "Network Error";
                     body := JStr msg |}))
  ∧ (∀ v, fetch url init = Throw (ThrownValue v) →
       request fetch self method path options
       = Throw (ThrownApiError
                  {| status := 0; statusText := "Network Error";
                     body := JStr (ToString v) |}))
  ∧ (∀ e, request_try fetch url init = Throw (ThrownApiError e) →
       request fetch self method path options = Throw (ThrownApiError e)).
Proof.
  intros url init. unfold request. fold url init.
  refine (conj _ (conj _ (conj _ _))).
  - intros response Hf Hok. unfold request_try. rewrite Hf, Hok. reflexivity.
  - intros msg Hf. unfold request_try. rewrite Hf. reflexivity.
  - intros v Hf. unfold request_try. rewrite Hf. reflexivity.
  - intros e He. rewrite He. reflexivity.
Qed.


(** C8: on an ok response, the body 1234 makes [getListSize] return
    [{size: 1234}]; the body of two addresses and a blank line makes
    [getListUsers] return the two users; an empty body makes [request]
    return [{}]; and the JSON text of [{campaigns: []}] makes it return
    that object. *)
Theorem C8_response_normalization (self : IterableClient) :
  (∀ listId response,
     fetch (request_url self ("/api/lists/" +:+ Number_toString listId +:+ "/size") None)
           (request_init self "GET" None) = Return response →
     ok response = true → text response = Return body_size →
     getListSize fetch self listId
     = Return (JObj {[ "size" := JNum (int 1234) ]}))
  ∧ (∀ params response,
       let options :=
         Some {| opt_body := JUndefined;
                 opt_params := Some [("listId", JNum (listId params));
                                     ("maxResults", opt_num (maxResults params))] |} in
       fetch (request_url self "/api/lists/getUsers" options)
             (request_init self "GET" options) = Return response →
       ok response = true → text response = Return body_emails →
       getListUsers fetch self params
       = Return (JObj {[ "users" :=
           JArr [JObj {[ "email" := JStr "a@x.com" ]};
                 JObj {[ "email" := JStr "b@x.com" ]}] ]}))
  ∧ (∀ method path options response,
       fetch (request_url self path options) (request_init self method options)
       = Return response →
       ok response = true → text response = Return "" →
       request fetch self method path options = Return (JObj ∅))
  ∧ (∀ method path options response,
       fetch (request_url self path options) (request_init self method options)
       = Return response →
       ok response = true → text response = Return body_campaigns →
       request fetch self method path options
       = Return (JObj {[ "campaigns" := JArr [] ]})).
Proof.
  refine (conj _ (conj _ (conj _ _))).
  - intros listId response Hf Hok Ht. unfold getListSize.
    rewrite (request_ok _ _ _ _ _ _ Hf Hok Ht).
    vm_compute. reflexivity.
  - intros params response options Hf Hok Ht. unfold getListUsers.
    fold options. rewrite (request_ok _ _ _ _ _ _ Hf Hok Ht).
    vm_compute. reflexivity.
  - intros method path options response Hf Hok Ht.
    rewrite (request_ok _ _ _ _ _ _ Hf Hok Ht). reflexivity.
  - intros method path options response Hf Hok Ht.
    rewrite (request_ok _ _ _ _ _ _ Hf Hok Ht).
    vm_compute. reflexivity.
Qed.

(** The query string of [getSentMessages] once the identifiers 1, 2 and 3
    are appended to the pairs [base] of the other parameters. *)
Lemma campaignIds_123_toString (base : URLSearchParams) :
  URLSearchParams_toString
    (fold_left (fun sp id => append "campaignIds" (Number_toString id) sp)
       [int 1; int 2; int 3] base)
  = (match base with
     | [] => ""
     | _ => URLSearchParams_toString base +:+ "&"
     end) +:+ "campaignIds=1&campaignIds=2&campaignIds=3".
Proof.
  rewrite fold_append_spec. unfold URLSearchParams_toString.
  rewrite map_app, concat_app by discriminate.
  destruct base; reflexivity.
Qed.

(** C9: with [campaignIds] 1, 2 and 3, the pairs named campaignIds that
    [getSentMessages] appends are one pair per identifier, and the URL it
    calls ends with campaignIds=1&campaignIds=2&campaignIds=3 after the
    question mark or an ampersand; and in every [request] the pairs of the
    query are those of the entries whose value is not [undefined], so the
    call is the one made without the undefined entries and no pair bears
    the name of an entry that is undefined. *)
Theorem C9_query_serialization (self : IterableClient) :
  (∀ params, campaignIds params = Some [int 1; int 2; int 3] →
     List.filter (fun p => String.eqb (fst p) "campaignIds")
       (getSentMessages_searchParams params)
     = [("campaignIds", "1"); ("campaignIds", "2"); ("campaignIds", "3")]
     ∧ ∃ before,
         (before = "" ∨ ∃ b, before = b +:+ "&")
         ∧ getSentMessages fetch self params
           = request_catch
               (request_try fetch
                  (baseUrl self +:+ "/api/users/getSentMessages?" +:+ before
                   +:+ "campaignIds=1&campaignIds=2&campaignIds=3")
                  (request_init self "GET" None)))
  ∧ (∀ method path body params,
       append_defined [] params
       = map (fun e => (fst e, ToString (snd e)))
           (List.filter (fun e => negb (is_undefined (snd e))) params)
       ∧ request fetch self method path
           (Some {| opt_body := body; opt_params := Some params |})
         = request fetch self method path
             (Some {| opt_body := body;
                      opt_params :=
                        Some (List.filter
                                (fun e => negb (is_undefined (snd e))) params) |})
       ∧ (∀ key, (∀ v, In (key, v) params → v = JUndefined) →
                 get key (append_defined [] params) = None)).
Proof.
  split.
  - intros params Hids. split.
    + unfold getSentMessages_searchParams. rewrite Hids.
      destruct (email params), (userId params), (limit params),
        (startDateTime params), (endDateTime params), (messageMedium params);
        reflexivity.
    + unfold getSentMessages, getSentMessages_path, getSentMessages_searchParams.
      rewrite Hids, campaignIds_123_toString.
      set (base := append_defined [] _).
      set (before := match base with
                     | [] => ""
                     | _ => URLSearchParams_toString base +:+ "&"
                     end).
      exists before. split.
      * subst before. destruct base; [left; reflexivity | right; eauto].
      * rewrite nonempty_append_r by reflexivity. reflexivity.
  - intros method path body params.
    assert (Hspec := append_defined_spec [] params). simpl in Hspec.
    refine (conj Hspec (conj _ _)).
    + unfold request, request_url, request_init; simpl.
      rewrite !append_defined_spec; simpl.
      rewrite filter_idem. reflexivity.
    + intros key Hkey. rewrite Hspec. clear Hspec.
      induction params as [|[k v] params IH]; [reflexivity |].
      simpl. destruct (is_undefined v) eqn:Hv; simpl.
      * apply IH. intros v' Hin. apply Hkey. now right.
      * destruct (String.eqb k key) eqn:Hk.
        -- apply String.eqb_eq in Hk. subst k.
           rewrite (Hkey v (or_introl eq_refl)) in Hv. discriminate.
        -- apply IH. intros v' Hin. apply Hkey. now right.
Qed.


(** The URL of [getCampaigns]. *)
Lemma getCampaigns_url (self : IterableClient) (params : option GetCampaignsParams) :
  request_url self "/api/campaigns" (getCampaigns_options params)
  = baseUrl self +:+ "/api/campaigns?page="
    +:+ urlencode (Number_toString (default (int 1) (params ≫= page)))
    +:+ "&pageSize="
    +:+ urlencode (Number_toString (default (int 20) (params ≫= pageSize)))
    +:+ match params ≫= sort with
        | Some s => "&sort=" +:+ urlencode s
        | None => ""
        end.
Proof.
  unfold request_url, getCampaigns_options, getCampaigns_params.
  rewrite append_defined_spec.
  destruct (params ≫= sort) as [s|];
    (etrans; [apply append_assoc |]); f_equal;
    rewrite ?append_empty_r; reflexivity.
Qed.

(** C10: [getCampaigns] calls the URL whose query starts with page and
    pageSize, each one the value the caller gave or else 1 and 20, then
    sort when the caller gave one. *)
Theorem C10_default_pagination (self : IterableClient)
  (params : option GetCampaignsParams) :
  let enc x := urlencode (Number_toString x) in
  let url_with pg sz :=
    baseUrl self +:+ "/api/campaigns?page=" +:+ pg +:+ "&pageSize=" +:+ sz
    +:+ match params ≫= sort with
        | Some s => "&sort=" +:+ urlencode s
        | None => ""
        end in
  let calls u :=
    getCampaigns fetch self params
    = request_catch
        (request_try fetch u
           (request_init self "GET" (getCampaigns_options params))) in
  (params ≫= page = None →
     calls (url_with "1" (enc (default (int 20) (params ≫= pageSize)))))
  ∧ (params ≫= pageSize = None →
       calls (url_with (enc (default (int 1) (params ≫= page))) "20"))
  ∧ (∀ pg, params ≫= page = Some pg →
       calls (url_with (enc pg) (enc (default (int 20) (params ≫= pageSize)))))
  ∧ (∀ sz, params ≫= pageSize = Some sz →
       calls (url_with (enc (default (int 1) (params ≫= page))) (enc sz))).
Proof.
  intros enc url_with calls. subst calls url_with enc. cbv beta.
  unfold getCampaigns, request. rewrite getCampaigns_url.
  refine (conj _ (conj _ (conj _ _))).
  - intros Hp. rewrite Hp. reflexivity.
  - intros Hs. rewrite Hs. reflexivity.
  - intros pg Hp. rewrite Hp. reflexivity.
  - intros sz Hs. rewrite Hs. reflexivity.
Qed.

End ClientClaims.

Section ClientWitnesses.
Import Js Client Examples.

Lemma C7_error_classification_witness :
  request (fetch_always (Return response_404)) test_client "GET" "/api/lists/7/size" None
  = Throw (ThrownApiError
             {| status := 404; statusText := "Not Found";
                body := JStr "List not found" |})
  ∧ request (fetch_always (Throw (ThrownError "getaddrinfo ENOTFOUND")))
      test_client "GET" "/api/lists/7/size" None
    = Throw (ThrownApiError
               {| status := 0; statusText := "Network Error";
                  body := JStr "getaddrinfo ENOTFOUND" |}).
Proof.
  split.
  - exact (proj1 (C7_error_classification
                    (fetch_always (Return response_404)) test_client
                    "GET" "/api/lists/7/size" None)
             response_404 eq_refl eq_refl).
  - exact (proj1 (proj2 (C7_error_classification
                    (fetch_always (Throw (ThrownError "getaddrinfo ENOTFOUND")))
                    test_client "GET" "/api/lists/7/size" None))
             "getaddrinfo ENOTFOUND" eq_refl).
Defined.

Lemma C8_response_normalization_witness :
  getListSize (fetch_always (Return (response_ok body_size))) test_client (int 7)
  = Return (JObj {[ "size" := JNum (int 1234) ]})
  ∧ getListUsers (fetch_always (Return (response_ok body_emails))) test_client
      {| listId := int 7; maxResults := None |}
    = Return (JObj {[ "users" :=
        JArr [JObj {[ "email" := JStr "a@x.com" ]};
              JObj {[ "email" := JStr "b@x.com" ]}] ]})
  ∧ request (fetch_always (Return (response_ok ""))) test_client
      "GET" "/api/campaigns" None
    = Return (JObj ∅)
  ∧ request (fetch_always (Return (response_ok body_campaigns))) test_client
      "GET" "/api/campaigns" None
    = Return (JObj {[ "campaigns" := JArr [] ]}).
Proof.
  refine (conj _ (conj _ (conj _ _))).
  - exact (proj1 (C8_response_normalization
                    (fetch_always (Return (response_ok body_size))) test_client)
             (int 7) (response_ok body_size) eq_refl eq_refl eq_refl).
  - exact (proj1 (proj2 (C8_response_normalization
                    (fetch_always (Return (response_ok body_emails))) test_client))
             {| listId := int 7; maxResults := None |}
             (response_ok body_emails) eq_refl eq_refl eq_refl).
  - exact (proj1 (proj2 (proj2 (C8_response_normalization
                    (fetch_always (Return (response_ok ""))) test_client)))
             "GET" "/api/campaigns" None
             (response_ok "") eq_refl eq_refl eq_refl).
  - exact (proj2 (proj2 (proj2 (C8_response_normalization
                    (fetch_always (Return (response_ok body_campaigns))) test_client)))
             "GET" "/api/campaigns" None
             (response_ok body_campaigns) eq_refl eq_refl eq_refl).
Defined.

Lemma C9_query_serialization_witness :
  List.filter (fun p => String.eqb (fst p) "campaignIds")
    (getSentMessages_searchParams sent_messages_123)
  = [("campaignIds", "1"); ("campaignIds", "2"); ("campaignIds", "3")]
  ∧ get "sort" (append_defined [] (getCampaigns_params None)) = None.
Proof.
  split.
  - exact (proj1 (proj1 (C9_query_serialization
                           (fetch_always (Return (response_ok ""))) test_client)
                    sent_messages_123 eq_refl)).
  - apply (proj2 (proj2 (proj2 (C9_query_serialization
                           (fetch_always (Return (response_ok ""))) test_client)
                    "GET" "/api/campaigns" JUndefined (getCampaigns_params None)))).
    intros v [H | [H | [H | []]]]; inversion H; reflexivity.
Defined.

(** The path [getSentMessages] builds for an address and three campaigns. *)
Example getSentMessages_path_123 :
  getSentMessages_path sent_messages_123
  = "/api/users/getSentMessages?email=a%40x.com&campaignIds=1&campaignIds=2&campaignIds=3".
Proof. vm_compute. reflexivity. Qed.

Lemma C10_default_pagination_witness :
  getCampaigns
    (fetch_at "https://api.iterable.com/api/campaigns?page=1&pageSize=20"
       (response_ok body_campaigns))
    test_client None
  = Return (JObj {[ "campaigns" := JArr [] ]}).
Proof.
  rewrite (proj1 (C10_default_pagination
                    (fetch_at "https://api.iterable.com/api/campaigns?page=1&pageSize=20"
                       (response_ok body_campaigns))
                    test_client None) eq_refl).
  vm_compute. reflexivity.
Defined.

End ClientWitnesses.

(** * Further properties

    What follows covers the code around the statements above: the rest of
    the filter, the other endpoints of the client, the tools of the agent
    and the routes of the worker. *)

(* ================================================================== *)
(** * Lists of names *)

Lemma forallb_In {A} (f : A → bool) (l : list A) (x : A) :
  forallb f l = true → In x l → f x = true.
Proof. intros H Hin. exact (proj1 (forallb_forall f l) H x Hin). Qed.

Lemma existsb_In (n : string) (l : list string) :
  existsb (String.eqb n) l = true → In n l.
Proof.
  intros H. apply existsb_exists in H as (x & Hin & Hx).
  apply String.eqb_eq in Hx. now subst x.
Qed.

(** ** The tool filter *)

(* ================================================================== *)
(** * More properties of the tool filter *)

Section FilterExtras.
Import Filter.

Lemma read_only_send_disjoint : READ_ONLY_TOOLS ## SEND_TOOLS.
Proof. apply (bool_decide_eq_true_1 _). vm_compute. reflexivity. Qed.

Lemma read_only_not_send n :
  has READ_ONLY_TOOLS n = true → has SEND_TOOLS n = false.
Proof.
  intros H%has_true. apply has_false. intros Hs.
  exact (read_only_send_disjoint n H Hs).
Qed.

(** X1: no read-only tool is a send tool, so with writes off the send flag
    changes nothing: a tool is allowed exactly when it is read-only and
    either PII is allowed or the tool is on the non-PII list. *)
Theorem writes_off_ignores_sends (n : string) (c : McpServerConfig) :
  allowWrites c = false →
  isToolAllowed n c
  = (allowUserPii c || has NON_PII_TOOLS n) && has READ_ONLY_TOOLS n.
Proof.
  intros Hw. rewrite isToolAllowed_formula, Hw. simpl.
  destruct (has READ_ONLY_TOOLS n) eqn:Hr.
  - rewrite (read_only_not_send n Hr). simpl.
    now rewrite orb_true_r, !andb_true_r.
  - now rewrite !andb_false_r.
Qed.

Lemma writes_off_ignores_sends_witness :
  isToolAllowed "get_sent_messages"
    {| allowUserPii := true; allowWrites := false; allowSends := true |} = true
  ∧ isToolAllowed "send_email"
      {| allowUserPii := true; allowWrites := false; allowSends := true |} = false.
Proof.
  split.
  - rewrite (writes_off_ignores_sends "get_sent_messages"
               {| allowUserPii := true; allowWrites := false; allowSends := true |}
               eq_refl).
    vm_compute. reflexivity.
  - rewrite (writes_off_ignores_sends "send_email"
               {| allowUserPii := true; allowWrites := false; allowSends := true |}
               eq_refl).
    vm_compute. reflexivity.
Defined.

(** X2: setting the flag a reason names removes that reason and brings
    back none of an earlier check: after the PII reason the PII reason is
    gone, after the write reason only the send reason can remain, and
    after the send reason the tool is allowed. *)
Theorem reason_follows_advice (n : string) (c : McpServerConfig) :
  (getBlockedReason n c = Some PII_REASON →
   getBlockedReason n
     {| allowUserPii := true; allowWrites := allowWrites c;
        allowSends := allowSends c |} ≠ Some PII_REASON)
  ∧ (getBlockedReason n c = Some WRITE_REASON →
     let r := getBlockedReason n
                {| allowUserPii := allowUserPii c; allowWrites := true;
                   allowSends := allowSends c |} in
     r = None ∨ r = Some SEND_REASON)
  ∧ (getBlockedReason n c = Some SEND_REASON →
     isToolAllowed n
       {| allowUserPii := allowUserPii c; allowWrites := allowWrites c;
          allowSends := true |} = true).
Proof.
  unfold getBlockedReason, isToolAllowed. simpl.
  destruct (allowUserPii c), (allowWrites c), (allowSends c),
    (has NON_PII_TOOLS n), (has READ_ONLY_TOOLS n), (has SEND_TOOLS n);
    simpl; (split; [| split]); intros H; try discriminate H;
    auto; discriminate.
Qed.

End FilterExtras.

(** ** The request core and pagination *)

(* ================================================================== *)
(** * More properties of the API client *)

Section ClientExtras.
Import Js Client Endpoints.

Lemma prefix_append (a b : string) : String.prefix a (a +:+ b) = true.
Proof.
  induction a as [|c a IH]; [now destruct b |].
  change (String.prefix (String c a) (String c (a +:+ b)) = true).
  simpl. destruct (ascii_dec c c); [exact IH | contradiction].
Qed.

(** The URL is the base URL and the path, then the query if any. *)
Lemma request_url_shape (self : IterableClient) (path : string)
  (options : option RequestOptions) :
  ∃ rest, request_url self path options = (baseUrl self +:+ path) +:+ rest.
Proof.
  unfold request_url.
  destruct options as [[b [ps|]]|]; try destruct (nonempty _); eauto;
    exists ""; now rewrite append_empty_r.
Qed.

(** Every URL of a path under /api/ starts with the base URL and /api/. *)
Lemma request_url_api (self : IterableClient) (x : string)
  (options : option RequestOptions) :
  String.prefix (baseUrl self +:+ "/api/")
    (request_url self ("/api/" +:+ x) options) = true.
Proof.
  destruct (request_url_shape self ("/api/" +:+ x) options) as [rest ->].
  rewrite <- (append_assoc (baseUrl self) "/api/" x), append_assoc.
  apply prefix_append.
Qed.

Variables fetch fetch' : string → RequestInit → completion Response.

(** [request] reads the network at one place. *)
Lemma request_ext (self : IterableClient) (method path : string)
  (options : option RequestOptions) :
  fetch (request_url self path options) (request_init self method options)
  = fetch' (request_url self path options) (request_init self method options) →
  request fetch self method path options
  = request fetch' self method path options.
Proof. intros H. unfold request, request_try. now rewrite H. Qed.

Lemma request_throws (self : IterableClient) (method path : string)
  (options : option RequestOptions) (t : thrown) :
  request fetch self method path options = Throw t → ∃ e, t = ThrownApiError e.
Proof.
  unfold request, request_catch.
  destruct (request_try fetch _ _) as [v | [e | msg | v]]; simpl;
    intros H; inversion H; eauto.
Qed.

(** [getListSize] throws what [request] throws, or the [TypeError] of
    [parseInt] on the value [request] returned. *)
Lemma getListSize_throws (self : IterableClient) (listId : number) (t : thrown) :
  getListSize fetch self listId = Throw t →
  (∃ e, t = ThrownApiError e)
  ∨ (t = TypeError_to_primitive
     ∧ ∃ v, request fetch self "GET"
              ("/api/lists/" +:+ Number_toString listId +:+ "/size") None
            = Return v
            ∧ ToString_throws v = true).
Proof.
  unfold getListSize, parseInt.
  destruct (request fetch self _ _ _) as [v | t'] eqn:Hr.
  - destruct (ToString_throws v) eqn:Hv; intros H; inversion H; subst.
    right. split; [reflexivity |]. now exists v.
  - intros H; inversion H; subst. left. eapply request_throws, Hr.
Qed.

Lemma getListSize_returned (self : IterableClient) (listId : number)
  (v : jsvalue) :
  request fetch self "GET"
    ("/api/lists/" +:+ Number_toString listId +:+ "/size") None = Return v →
  getListSize fetch self listId
  = if ToString_throws v then Throw TypeError_to_primitive
    else Return (JObj {[ "size" := JNum (parseInt10 (ToString v)) ]}).
Proof.
  intros Hr. unfold getListSize, parseInt. rewrite Hr.
  now destruct (ToString_throws v).
Qed.

Lemma getListUsers_throws (self : IterableClient) (params : GetListUsersParams)
  (t : thrown) :
  getListUsers fetch self params = Throw t → ∃ e, t = ThrownApiError e.
Proof.
  unfold getListUsers.
  destruct (request fetch self _ _ _) as [[| | | | | |] | t'] eqn:Hr;
    intros H; inversion H; subst. eapply request_throws, Hr.
Qed.

(** X3: whatever the network does, [request] throws nothing but an
    [IterableApiError], and so does [getListUsers], which does not catch
    it.  [getListSize] throws one more error: the [TypeError] of
    [parseInt], which it throws exactly when [request] returned a value
    that cannot be converted to a string, such as an object with a
    property named toString. *)
Theorem request_throws_api_error (self : IterableClient) :
  (∀ method path options t,
     request fetch self method path options = Throw t →
     ∃ e, t = ThrownApiError e)
  ∧ (∀ params t, getListUsers fetch self params = Throw t →
                 ∃ e, t = ThrownApiError e)
  ∧ (∀ listId t, getListSize fetch self listId = Throw t →
       (∃ e, t = ThrownApiError e)
       ∨ (t = TypeError_to_primitive
          ∧ ∃ v, request fetch self "GET"
                   ("/api/lists/" +:+ Number_toString listId +:+ "/size") None
                 = Return v
                 ∧ ToString_throws v = true))
  ∧ (∀ listId v,
       request fetch self "GET"
         ("/api/lists/" +:+ Number_toString listId +:+ "/size") None
       = Return v →
       ToString_throws v = true →
       getListSize fetch self listId = Throw TypeError_to_primitive).
Proof.
  refine (conj _ (conj _ (conj _ _))).
  - apply request_throws.
  - apply getListUsers_throws.
  - apply getListSize_throws.
  - intros listId v Hr Hv. now rewrite (getListSize_returned _ _ _ Hr), Hv.
Qed.

(** A query whose entries are all [undefined] is empty. *)
Lemma append_defined_all_undefined (params : list (string * jsvalue)) :
  Forall (fun e => snd e = JUndefined) params → append_defined [] params = [].
Proof.
  intros H. rewrite append_defined_spec. simpl.
  induction H as [|[k v] params Hv _ IH]; [reflexivity |].
  simpl in *. now rewrite Hv.
Qed.

(** X4: when every parameter is [undefined] (or there is none) the URL
    is the base URL and the path, with no question mark; so [getTemplates]
    without parameters and [getCatalogItems] without page and pageSize call
    the bare path. *)
Theorem request_without_query (self : IterableClient) :
  (∀ path body params,
     Forall (fun e => snd e = JUndefined) params →
     request_url self path (Some {| opt_body := body; opt_params := Some params |})
     = baseUrl self +:+ path)
  ∧ getTemplates fetch self None
    = request_catch
        (request_try fetch (baseUrl self +:+ "/api/templates")
           (request_init self "GET" None))
  ∧ (∀ name,
       getCatalogItems fetch self
         {| catalogName := name; items_page := None; items_pageSize := None |}
       = request_catch
           (request_try fetch
              (baseUrl self +:+ "/api/catalogs/" +:+ name +:+ "/items")
              (request_init self "GET" None))).
Proof.
  assert (H : ∀ path body params,
     Forall (fun e => snd e = JUndefined) params →
     request_url self path (Some {| opt_body := body; opt_params := Some params |})
     = baseUrl self +:+ path).
  { intros path body params Hu. unfold request_url.
    now rewrite (append_defined_all_undefined params Hu). }
  refine (conj H (conj _ _)).
  - unfold getTemplates, request, with_params. rewrite H; [reflexivity |].
    repeat constructor.
  - intros name. unfold getCatalogItems, request, with_params.
    rewrite H; [reflexivity | repeat constructor].
Qed.

(** X5: [getChildCampaigns] always sends page and pageSize, 1 and 20
    unless the caller gave them. *)
Theorem getChildCampaigns_pagination (self : IterableClient)
  (params : GetChildCampaignsParams) :
  getChildCampaigns fetch self params
  = request_catch
      (request_try fetch
         (baseUrl self +:+ "/api/campaigns/recurring/"
          +:+ Number_toString (child_id params) +:+ "/childCampaigns?page="
          +:+ urlencode (Number_toString (default (int 1) (child_page params)))
          +:+ "&pageSize="
          +:+ urlencode (Number_toString (default (int 20) (child_pageSize params))))
         (request_init self "GET" None))
  ∧ urlencode (Number_toString (int 1)) = "1"
  ∧ urlencode (Number_toString (int 20)) = "20".
Proof.
  refine (conj _ (conj eq_refl eq_refl)).
  unfold getChildCampaigns, request. f_equal. f_equal.
  unfold request_url, with_params. rewrite append_defined_spec.
  cbn [List.filter map snd fst is_undefined negb app].
  unfold URLSearchParams_toString. cbn [map String.concat serialize_pair fst snd].
  set (p := urlencode (Number_toString (default (int 1) (child_page params)))).
  set (q := urlencode (Number_toString (default (int 20) (child_pageSize params)))).
  set (i := Number_toString (child_id params)).
  change (urlencode "page") with "page".
  change (urlencode "pageSize") with "pageSize".
  rewrite nonempty_append_r.
  - rewrite !append_assoc. reflexivity.
  - apply nonempty_append_r, nonempty_append_r. reflexivity.
Qed.

End ClientExtras.

(** ** Escaped path segments *)

Section PathExtras.
Import Js Client Endpoints Shapes.

Lemma encoded_byte_safe (c : ascii) :
  forallb (fun d => negb (is_delimiter d))
    (list_ascii_of_string
       (if is_uri_unreserved c then String c EmptyString else percent_byte c))
  = true.
Proof. destruct c as [[] [] [] [] [] [] [] []]; reflexivity. Qed.

Lemma list_ascii_of_append (a b : string) :
  list_ascii_of_string (a +:+ b)
  = list_ascii_of_string a ++ list_ascii_of_string b.
Proof.
  induction a as [|c a IH]; [reflexivity |].
  change (c :: list_ascii_of_string (a +:+ b)
          = c :: (list_ascii_of_string a ++ list_ascii_of_string b)).
  now rewrite IH.
Qed.

Lemma escape_bytes_safe (s : string) :
  forallb (fun d => negb (is_delimiter d))
    (list_ascii_of_string (escape_bytes s)) = true.
Proof.
  induction s as [|c s IH]; [reflexivity |].
  cbn [escape_bytes]. rewrite list_ascii_of_append, forallb_app, IH.
  now rewrite encoded_byte_safe.
Qed.

Lemma encodeURIComponent_safe (s segment : string) :
  encodeURIComponent s = Some segment →
  forallb (fun d => negb (is_delimiter d)) (list_ascii_of_string segment) = true.
Proof.
  unfold encodeURIComponent. destruct (has_lone_surrogate s); [discriminate |].
  intros [= <-]. apply escape_bytes_safe.
Qed.

Lemma hex_digit_inv (c : ascii) :
  hex_val (hex_digit (code c / 16)) = Some (code c / 16)%N
  ∧ hex_val (hex_digit (code c mod 16)) = Some (code c mod 16)%N.
Proof. destruct c as [[] [] [] [] [] [] [] []]; split; reflexivity. Qed.

Lemma code_inj (c d : ascii) : code c = code d → c = d.
Proof.
  unfold code. intros H.
  rewrite <- (ascii_N_embedding c), <- (ascii_N_embedding d). now rewrite H.
Qed.

Lemma percent_byte_inj (c d : ascii) (r r' : string) :
  percent_byte c +:+ r = percent_byte d +:+ r' → c = d ∧ r = r'.
Proof.
  unfold percent_byte. intros H. injection H as H1 H2 H3.
  destruct (hex_digit_inv c) as [Hc1 Hc2], (hex_digit_inv d) as [Hd1 Hd2].
  rewrite H1, Hd1 in Hc1. rewrite H2, Hd2 in Hc2.
  injection Hc1 as Hq. injection Hc2 as Hm.
  split; [| exact H3]. apply code_inj.
  rewrite (N.div_mod (code c) 16), (N.div_mod (code d) 16) by discriminate.
  now rewrite Hq, Hm.
Qed.

Lemma escape_bytes_inj (a b : string) :
  escape_bytes a = escape_bytes b → a = b.
Proof.
  revert b. induction a as [|c a IH]; intros [|d b]; cbn [escape_bytes].
  - reflexivity.
  - destruct (is_uri_unreserved d); discriminate.
  - destruct (is_uri_unreserved c); discriminate.
  - destruct (is_uri_unreserved c) eqn:Hc, (is_uri_unreserved d) eqn:Hd.
    + intros H. injection H as -> H. now rewrite (IH b H).
    + intros H. injection H as -> _. discriminate Hc.
    + intros H. injection H as <- _. discriminate Hd.
    + intros H. apply percent_byte_inj in H as [-> H]. now rewrite (IH b H).
Qed.

Lemma encodeURIComponent_inj (a b segment : string) :
  encodeURIComponent a = Some segment → encodeURIComponent b = Some segment →
  a = b.
Proof.
  unfold encodeURIComponent.
  destruct (has_lone_surrogate a), (has_lone_surrogate b); try discriminate.
  intros [= <-] [= H]. symmetry. now apply escape_bytes_inj.
Qed.

End PathExtras.

(** ** Endpoints *)

Section EndpointExtras.
Import Js Client Endpoints Examples Shapes.

Variable fetch : string → RequestInit → completion Response.

(** X6: [getUserByEmail] throws the [URIError] of [encodeURIComponent]
    when the address has a lone surrogate, before any call; otherwise it
    calls /api/users/ followed by one escaped segment: no slash, question
    mark, hash, ampersand or space comes from the address, so no address
    reaches the byUserId route or adds a query. *)
Theorem getUserByEmail_one_segment (self : IterableClient) :
  (∀ email,
     getUserByEmail fetch self email
     = match encodeURIComponent email with
       | Some segment =>
         request_catch
           (request_try fetch (baseUrl self +:+ "/api/users/" +:+ segment)
              (request_init self "GET" None))
       | None => Throw URIError_malformed
       end)
  ∧ (∀ email, has_lone_surrogate email = false →
              ∃ segment, encodeURIComponent email = Some segment)
  ∧ (∀ email segment c,
       encodeURIComponent email = Some segment →
       In c (list_ascii_of_string segment) → is_delimiter c = false)
  ∧ (∀ email userId segment segment',
       encodeURIComponent email = Some segment →
       encodeURIComponent userId = Some segment' →
       "/api/users/" +:+ segment ≠ "/api/users/byUserId/" +:+ segment').
Proof.
  assert (Hsafe : ∀ email segment c,
            encodeURIComponent email = Some segment →
            In c (list_ascii_of_string segment) → is_delimiter c = false).
  { intros email segment c He Hin.
    apply (forallb_In _ _ c (encodeURIComponent_safe email segment He)) in Hin.
    now destruct (is_delimiter c). }
  refine (conj _ (conj _ (conj Hsafe _))).
  - intros email. unfold getUserByEmail.
    now destruct (encodeURIComponent email).
  - intros email He. unfold encodeURIComponent. rewrite He. now eexists.
  - intros email userId segment segment' He _ H.
    change ("/api/users/" +:+ segment
            = "/api/users/" +:+ "byUserId/" +:+ segment') in H.
    apply (inj (String.app "/api/users/")) in H.
    assert (Hin : In "/"%char (list_ascii_of_string segment)).
    { rewrite H. change ("byUserId/" +:+ segment')
        with ("byUserId" +:+ String "/" segment').
      rewrite list_ascii_of_append. apply in_or_app. right. now left. }
    apply (Hsafe _ _ _ He) in Hin. discriminate Hin.
Qed.

(** X7: different addresses give different URLs, and so do different
    user identifiers. *)
Theorem user_lookup_urls_distinct (self : IterableClient) (a b : string) :
  (∀ sa sb,
     encodeURIComponent a = Some sa → encodeURIComponent b = Some sb →
     baseUrl self +:+ "/api/users/" +:+ sa
     = baseUrl self +:+ "/api/users/" +:+ sb → a = b)
  ∧ (∀ sa sb,
       encodeURIComponent a = Some sa → encodeURIComponent b = Some sb →
       baseUrl self +:+ "/api/users/byUserId/" +:+ sa
       = baseUrl self +:+ "/api/users/byUserId/" +:+ sb → a = b).
Proof.
  split; intros sa sb Ha Hb H; apply (inj (String.app (baseUrl self))) in H;
    apply (inj (String.app _)) in H; subst sb;
    exact (encodeURIComponent_inj a b sa Ha Hb).
Qed.

(** X8: [getCatalogItem] writes the catalog name and the item id into
    the path as they are, so a name that contains /items/ is read as a
    shorter name and a longer id. *)
Theorem getCatalogItem_unescaped (self : IterableClient) (a b c : string) :
  getCatalogItem fetch self
    {| item_catalogName := a +:+ "/items/" +:+ b; itemId := c |}
  = getCatalogItem fetch self
      {| item_catalogName := a; itemId := b +:+ "/items/" +:+ c |}.
Proof.
  unfold getCatalogItem. cbn [item_catalogName itemId].
  f_equal. now rewrite !append_assoc.
Qed.

(** X9: when an ok response has an empty body, or a body that is a JSON
    object without a property named toString, [getListSize] returns a
    size that is not a number; when the body is a JSON object with such a
    property, [getListSize] throws the [TypeError] of [parseInt]. *)
Theorem getListSize_not_a_number (self : IterableClient) (listId : number)
  (response : Response) :
  fetch (request_url self ("/api/lists/" +:+ Number_toString listId +:+ "/size") None)
        (request_init self "GET" None) = Return response →
  ok response = true →
  (text response = Return "" →
   getListSize fetch self listId = Return (JObj {[ "size" := JNum NaN ]}))
  ∧ (∀ body m,
       text response = Return body → nonempty body = true →
       JSON_parse body = Some (JObj m) →
       getListSize fetch self listId
       = match m !! "toString" with
         | None => Return (JObj {[ "size" := JNum NaN ]})
         | Some _ => Throw TypeError_to_primitive
         end).
Proof.
  intros Hf Hok. split.
  - intros Ht. unfold getListSize.
    rewrite (request_ok _ _ _ _ _ _ _ Hf Hok Ht). reflexivity.
  - intros body m Ht Hne Hp. unfold getListSize, parseInt.
    rewrite (request_ok _ _ _ _ _ _ _ Hf Hok Ht), Hne, Hp.
    cbn [ToString_throws ToString].
    destruct (m !! "toString") as [v |] eqn:Hm.
    + rewrite bool_decide_eq_true_2 by (now exists v). reflexivity.
    + rewrite bool_decide_eq_false_2; [reflexivity |].
      intros [v Hv]. discriminate Hv.
Qed.

(** X10: the campaign identifiers of [getSentMessages] become one pair
    each, in their order, after the pairs of the other parameters; an
    empty list adds nothing. *)
Theorem getSentMessages_ids_last (params : GetSentMessagesParams)
  (ids : list number) :
  campaignIds params = Some ids →
  getSentMessages_searchParams params
  = getSentMessages_searchParams
      {| email := email params; userId := userId params;
         limit := limit params; campaignIds := None;
         startDateTime := startDateTime params;
         endDateTime := endDateTime params;
         messageMedium := messageMedium params |}
    ++ map (fun id => ("campaignIds", Number_toString id)) ids.
Proof.
  intros H. unfold getSentMessages_searchParams. rewrite H.
  cbn [campaignIds email userId limit startDateTime endDateTime messageMedium].
  apply fold_append_spec.
Qed.

End EndpointExtras.

Section EndpointWitnesses.
Import Js Client Endpoints Examples.

Lemma getListSize_not_a_number_witness :
  getListSize (fetch_always (Return (response_ok ""))) test_client (int 7)
  = Return (JObj {[ "size" := JNum NaN ]})
  ∧ getListSize (fetch_always (Return (response_ok body_own_toString)))
      test_client (int 7)
    = Throw TypeError_to_primitive.
Proof.
  split.
  - exact (proj1 (getListSize_not_a_number
                    (fetch_always (Return (response_ok ""))) test_client (int 7)
                    (response_ok "") eq_refl eq_refl) eq_refl).
  - refine (eq_trans
              (proj2 (getListSize_not_a_number
                        (fetch_always (Return (response_ok body_own_toString)))
                        test_client (int 7)
                        (response_ok body_own_toString) eq_refl eq_refl)
                 body_own_toString {[ "toString" := JNum (int 1) ]} _ _ _) _);
      vm_compute; reflexivity.
Defined.

Lemma getSentMessages_ids_last_witness :
  getSentMessages_searchParams sent_messages_123
  = [("email", "a@x.com"); ("campaignIds", "1"); ("campaignIds", "2");
     ("campaignIds", "3")].
Proof.
  exact (getSentMessages_ids_last sent_messages_123 [int 1; int 2; int 3] eq_refl).
Defined.

End EndpointWitnesses.

Section ListUsersExtras.
Import Js Client Endpoints Examples.

Variable fetch : string → RequestInit → completion Response.


End ListUsersExtras.

Section ListUsersWitnesses.
Import Js Client Endpoints Examples.


End ListUsersWitnesses.

(** ** Lists of addresses *)

(* ================================================================== *)
(** * Lists of addresses *)

Section NotJson.
Import Js Shapes.

Lemma lex_idle_outside (toks : list token) (c : ascii) st :
  Ascii.eqb c (chr 34) = false → lex_idle toks c = Some st →
  outside_string (fst st) = true.
Proof.
  intros Hq. unfold lex_idle. rewrite Hq.
  repeat match goal with
         | |- context [if ?b then _ else _] => destruct b
         end;
    intros H; inversion H; reflexivity.
Qed.

(** Outside a string literal, a character that is no double quote leaves
    the lexer outside. *)
Lemma lex_char_outside (st st' : lexmode * list token) (c : ascii) :
  outside_string (fst st) = true → Ascii.eqb c (chr 34) = false →
  lex_char st c = Some st' → outside_string (fst st') = true.
Proof.
  destruct st as [[| rest t | ph a | ph a] toks]; cbn [fst outside_string lex_char];
    intros Ho Hq.
  - now apply lex_idle_outside.
  - destruct rest as [|d [|d' rest]]; [discriminate | ..];
      destruct (Ascii.eqb c d); intros H; inversion H; subst; cbn [fst outside_string].
    + reflexivity.
    + cbn [list_ascii_of_string existsb] in Ho |- *.
      now destruct (Ascii.eqb "@" d); [discriminate Ho |].
  - destruct (num_step ph a c); intros H.
    + inversion H. reflexivity.
    + now apply lex_idle_outside in H.
    + discriminate H.
  - discriminate Ho.
Qed.

(** Outside a string literal, an at sign is an error. *)
Lemma lex_char_at (st : lexmode * list token) :
  outside_string (fst st) = true → lex_char st "@" = None.
Proof.
  destruct st as [[| rest t | ph a | ph a] toks]; cbn [fst outside_string lex_char];
    intros Ho.
  - reflexivity.
  - destruct rest as [|d [|d' rest]]; [reflexivity | ..];
      cbn [list_ascii_of_string existsb] in Ho;
      destruct (Ascii.eqb "@" d); (discriminate Ho || reflexivity).
  - destruct ph; reflexivity.
  - discriminate Ho.
Qed.

Lemma lex_from_at (s : string) (st : lexmode * list token) :
  outside_string (fst st) = true →
  forallb (fun c => negb (Ascii.eqb c (chr 34))) (list_ascii_of_string s) = true →
  existsb (Ascii.eqb "@") (list_ascii_of_string s) = true →
  lex_from st s = None.
Proof.
  revert st. induction s as [|c s IH]; intros st Ho Hq Ha; [discriminate Ha |].
  cbn [list_ascii_of_string forallb existsb lex_from] in *.
  apply andb_prop in Hq as [Hc Hq].
  destruct (Ascii.eqb_spec "@" c) as [<- | Hne].
  - now rewrite lex_char_at.
  - destruct (lex_char st c) as [st' |] eqn:Hl; [| reflexivity].
    apply IH; [| exact Hq | exact Ha].
    apply (lex_char_outside st st' c Ho); [| exact Hl].
    now destruct (Ascii.eqb c (chr 34)).
Qed.

(** A text with an at sign and no double quote is not JSON. *)
Lemma at_sign_not_json (s : string) :
  forallb (fun c => negb (Ascii.eqb c (chr 34))) (list_ascii_of_string s) = true →
  existsb (Ascii.eqb "@") (list_ascii_of_string s) = true →
  JSON_parse s = None.
Proof.
  intros Hq Ha. unfold JSON_parse, lex.
  now rewrite (lex_from_at s (LIdle, []) eq_refl Hq Ha).
Qed.

End NotJson.

Section TrimSplit.
Import Js Shapes.

Lemma rev_app_spec (s acc : string) :
  String.rev_app s acc = String.rev s +:+ acc.
Proof.
  revert acc. induction s as [|c s IH]; intros acc; [reflexivity |].
  unfold String.rev. cbn [String.rev_app].
  rewrite (IH (String c acc)), (IH (String c "")), append_assoc. reflexivity.
Qed.

Lemma rev_cons (c : ascii) (s : string) :
  String.rev (String c s) = String.rev s +:+ String c "".
Proof. unfold String.rev at 1. cbn [String.rev_app]. apply rev_app_spec. Qed.

Lemma rev_append (a b : string) :
  String.rev (a +:+ b) = String.rev b +:+ String.rev a.
Proof.
  induction a as [|c a IH]; [now rewrite append_empty_r |].
  change (String c a +:+ b) with (String c (a +:+ b)).
  now rewrite !rev_cons, IH, append_assoc.
Qed.

Lemma rev_rev (s : string) : String.rev (String.rev s) = s.
Proof.
  induction s as [|c s IH]; [reflexivity |].
  rewrite rev_cons, rev_append, IH. reflexivity.
Qed.

(** An address character is no white space, alone or as the last byte
    of a longer character. *)
Lemma address_char_not_ws (a b c : ascii) :
  is_address_char c = true →
  is_ws1 c = false ∧ is_ws2 c b = false ∧ is_ws2 b c = false
  ∧ is_ws3 c a b = false ∧ is_ws3 a b c = false.
Proof.
  unfold is_address_char, is_ws1, is_ws2, is_ws3, in_range.
  intros [[Hlo Hhi]%andb_prop _]%andb_prop.
  apply N.leb_le in Hlo, Hhi.
  repeat match goal with
  | |- context [(code c =? ?k)%N] =>
    replace (code c =? k)%N with false by (symmetry; apply N.eqb_neq; lia)
  | |- context [(code c <=? ?k)%N] =>
    replace (code c <=? k)%N with false by (symmetry; apply N.leb_gt; lia)
  | |- context [(?k <=? code c)%N] =>
    replace (k <=? code c)%N with false by (symmetry; apply N.leb_gt; lia)
  end.
  rewrite ?andb_false_r, ?andb_false_l, ?orb_false_r; cbn [andb orb].
  rewrite ?andb_false_r; cbn [andb orb]. auto.
Qed.

(** White space is stripped up to the first address character, from
    either end. *)
Lemma strip_ws_address (back : bool) (c : ascii) (s : string) :
  is_address_char c = true → strip_ws back (String c s) = String c s.
Proof.
  intros Hc. cbn [strip_ws].
  destruct (address_char_not_ws c c c Hc) as (H1 & _). rewrite H1.
  destruct s as [|b [|d r]]; [reflexivity | ..].
  - destruct (address_char_not_ws c b c Hc) as (_ & H2 & H2' & _).
    rewrite H2, H2'. now destruct back.
  - destruct (address_char_not_ws c b c Hc) as (_ & H2 & H2' & _).
    rewrite H2, H2'.
    destruct (address_char_not_ws b d c Hc) as (_ & _ & _ & H3 & _).
    destruct (address_char_not_ws d b c Hc) as (_ & _ & _ & _ & H3').
    rewrite H3, H3'. now destruct back.
Qed.

(** The first character read from the end of a string of address
    characters is one of them. *)
Lemma rev_head (P : ascii → bool) (e : string) :
  e ≠ "" → forallb P (list_ascii_of_string e) = true →
  ∃ c s, String.rev e = String c s ∧ P c = true.
Proof.
  induction e as [|a e IH]; [congruence |]. intros _ Hall.
  cbn [list_ascii_of_string forallb] in Hall.
  apply andb_prop in Hall as [Ha Hall]. rewrite rev_cons.
  destruct e as [|b e]; [now exists a, "" |].
  destruct (IH ltac:(discriminate) Hall) as (c & s & -> & Hc).
  now exists c, (s +:+ String a "").
Qed.

Lemma trim_fixed (c0 c : ascii) (s0 s : string) :
  is_address_char c0 = true → is_address_char c = true →
  String.rev (String c0 s0) = String c s →
  trim (String c0 s0) = String c0 s0
  ∧ trim (String c0 s0 +:+ String "010" "") = String c0 s0.
Proof.
  intros H0 Hc Hrev. unfold trim, trimEnd, trimStart. split.
  - rewrite (strip_ws_address false c0 s0 H0), Hrev,
      (strip_ws_address true c s Hc), <- Hrev. apply rev_rev.
  - change (String c0 s0 +:+ String "010" "")
      with (String c0 (s0 +:+ String "010" "")).
    rewrite (strip_ws_address false c0 _ H0).
    change (String c0 (s0 +:+ String "010" ""))
      with (String c0 s0 +:+ String "010" "").
    rewrite rev_append, Hrev.
    change (strip_ws true (String.rev (String "010" "") +:+ String c s))
      with (strip_ws true (String c s)).
    rewrite (strip_ws_address true c s Hc), <- Hrev. apply rev_rev.
Qed.

(** An address is left as it is by [trim], and is not empty. *)
Lemma trim_address (e : string) :
  is_address e = true → trim e = e ∧ nonempty e = true.
Proof.
  unfold is_address. intros [Hall Hat]%andb_prop.
  destruct e as [|c0 s0]; [discriminate |].
  destruct (rev_head is_address_char (String c0 s0) ltac:(discriminate) Hall)
    as (c & s & Hrev & Hc).
  cbn [list_ascii_of_string forallb] in Hall.
  apply andb_prop in Hall as [H0 _].
  split; [apply (trim_fixed c0 c s0 s H0 Hc Hrev) | reflexivity].
Qed.

(** Splitting at a separator that the first piece does not hold. *)
Lemma split_piece (sep : ascii) (a : string) :
  forallb (fun c => negb (Ascii.eqb c sep)) (list_ascii_of_string a) = true →
  split sep a = [a]
  ∧ ∀ b, split sep (a +:+ String sep b) = a :: split sep b.
Proof.
  induction a as [|c a IH]; intros Hall.
  - split; [reflexivity |]. intros b.
    change ("" +:+ String sep b) with (String sep b).
    cbn [split]. now rewrite Ascii.eqb_refl.
  - cbn [list_ascii_of_string forallb] in Hall.
    apply andb_prop in Hall as [Hc Hall]. apply negb_true_iff in Hc.
    destruct (IH Hall) as [IH1 IH2]. split.
    + cbn [split]. now rewrite Hc, IH1.
    + intros b. change (String c a +:+ String sep b)
        with (String c (a +:+ String sep b)).
      cbn [split]. now rewrite Hc, IH2.
Qed.

Lemma address_no_line_feed (e : string) :
  is_address e = true →
  forallb (fun c => negb (Ascii.eqb c "010")) (list_ascii_of_string e) = true.
Proof.
  unfold is_address. intros [Hall _]%andb_prop.
  apply forallb_forall. intros c Hin.
  apply (proj1 (forallb_forall _ _) Hall) in Hin.
  destruct (Ascii.eqb_spec c "010") as [-> |]; [discriminate | reflexivity].
Qed.

(** Lines of addresses: the text without its last line feed splits back
    into the addresses. *)
Lemma lines_split (e : string) (l : list string) :
  Forall (fun e => is_address e = true) (e :: l) →
  ∃ t, lines (e :: l) = t +:+ String "010" ""
       ∧ split "010" t = e :: l
       ∧ ∃ c s, String.rev t = String c s ∧ is_address_char c = true.
Proof.
  revert e. induction l as [|e' l IH]; intros e Hall.
  - apply Forall_inv in Hall. exists e. split; [reflexivity |].
    split; [apply (split_piece _ _ (address_no_line_feed e Hall)) |].
    apply rev_head.
    + now destruct e.
    + unfold is_address in Hall. now apply andb_prop in Hall.
  - pose proof (Forall_inv Hall) as He. apply Forall_inv_tail in Hall.
    destruct (IH e' Hall) as (t & Ht & Hs & c & s & Hrev & Hc).
    exists (e +:+ String "010" t). split; [| split].
    + change (lines (e :: e' :: l)) with (e +:+ String "010" (lines (e' :: l))).
      rewrite Ht.
      change (String "010" (t +:+ String "010" ""))
        with (String "010" t +:+ String "010" "").
      now rewrite append_assoc.
    + rewrite (proj2 (split_piece _ _ (address_no_line_feed e He))), Hs.
      reflexivity.
    + exists c, (s +:+ String.rev (e +:+ String "010" "")).
      split; [| exact Hc].
      change (e +:+ String "010" t) with (e +:+ (String "010" "" +:+ t)).
      rewrite <- append_assoc, rev_append, Hrev. reflexivity.
Qed.

End TrimSplit.

Section AddressLines.
Import Js Client Shapes.

Lemma lines_chars (P : ascii → bool) (l : list string) :
  P "010"%char = true →
  Forall (fun e => forallb P (list_ascii_of_string e) = true) l →
  forallb P (list_ascii_of_string (lines l)) = true.
Proof.
  intros Hlf. induction 1 as [|e l He _ IH]; [reflexivity |].
  cbn [lines]. rewrite list_ascii_of_append, forallb_app, He.
  cbn [list_ascii_of_string forallb]. now rewrite Hlf, IH.
Qed.

Lemma address_no_quote (e : string) :
  is_address e = true →
  forallb (fun c => negb (Ascii.eqb c (chr 34))) (list_ascii_of_string e) = true.
Proof.
  unfold is_address. intros [Hall _]%andb_prop.
  apply forallb_forall. intros c Hin.
  apply (proj1 (forallb_forall _ _) Hall) in Hin.
  unfold is_address_char in Hin. now apply andb_prop in Hin.
Qed.

Variable fetch : string → RequestInit → completion Response.

(** X12: when the body of an ok response is a list of addresses, one per
    line and each line ended by a line feed, [getListUsers] returns
    exactly these addresses, in their order. *)
Theorem getListUsers_round_trip (self : IterableClient)
  (params : GetListUsersParams) (response : Response)
  (e : string) (l : list string) :
  let options :=
    Some {| opt_body := JUndefined;
            opt_params := Some [("listId", JNum (listId params));
                                ("maxResults", opt_num (maxResults params))] |} in
  fetch (request_url self "/api/lists/getUsers" options)
        (request_init self "GET" options) = Return response →
  ok response = true → text response = Return (lines (e :: l)) →
  Forall (fun e => is_address e = true) (e :: l) →
  getListUsers fetch self params
  = Return (JObj {[ "users" :=
      JArr (map (fun e => JObj {[ "email" := JStr e ]}) (e :: l)) ]}).
Proof.
  intros options Hf Hok Ht Hall. unfold getListUsers. fold options.
  rewrite (request_ok _ _ _ _ _ _ _ Hf Hok Ht).
  assert (Hne : nonempty (lines (e :: l)) = true).
  { destruct (trim_address e (Forall_inv Hall)) as [_ He].
    now destruct e. }
  rewrite Hne.
  assert (Hp : JSON_parse (lines (e :: l)) = None).
  { apply at_sign_not_json.
    - apply lines_chars; [reflexivity |].
      eapply Forall_impl; [exact Hall |]. exact address_no_quote.
    - pose proof (Forall_inv Hall) as He. unfold is_address in He.
      apply andb_prop in He as [_ He]. cbn [lines].
      rewrite list_ascii_of_append, existsb_app, He. reflexivity. }
  rewrite Hp.
  destruct (lines_split e l Hall) as (t & -> & Hs & c & s & Hrev & Hc).
  assert (Htrim : trim (t +:+ String "010" "") = t).
  { destruct t as [|c0 s0]; [discriminate |].
    assert (H0 : is_address_char c0 = true).
    { destruct (trim_address e (Forall_inv Hall)) as [_ He].
      destruct e as [|a e]; [discriminate |]. cbn [split] in Hs.
      pose proof (Forall_inv Hall) as Ha. unfold is_address in Ha.
      apply andb_prop in Ha as [Ha _].
      cbn [list_ascii_of_string forallb] in Ha.
      apply andb_prop in Ha as [Ha _].
      destruct (Ascii.eqb c0 "010"); [discriminate |].
      destruct (split "010" s0); injection Hs as -> _; exact Ha. }
    apply (trim_fixed c0 c s0 s H0 Hc Hrev). }
  rewrite Htrim, Hs.
  assert (Hfilter : List.filter (fun email => nonempty (trim email)) (e :: l)
                    = e :: l).
  { apply forallb_filter_id, forallb_forall. intros x Hx.
    apply list_elem_of_In in Hx.
    apply (proj1 (Forall_forall _ _) Hall) in Hx.
    destruct (trim_address x Hx) as [-> Hn]. exact Hn. }
  rewrite Hfilter. do 4 f_equal.
  apply map_ext_in. intros x Hx.
  apply list_elem_of_In in Hx.
  apply (proj1 (Forall_forall _ _) Hall) in Hx.
  now rewrite (proj1 (trim_address x Hx)).
Qed.

End AddressLines.

Section AddressLinesWitness.
Import Js Client Examples Shapes.

Lemma getListUsers_round_trip_witness :
  getListUsers
    (fetch_always (Return (response_ok (lines ["a@x.com"; "b@y.org"]))))
    test_client {| listId := int 7; maxResults := None |}
  = Return (JObj {[ "users" :=
      JArr [JObj {[ "email" := JStr "a@x.com" ]};
            JObj {[ "email" := JStr "b@y.org" ]}] ]}).
Proof.
  apply (getListUsers_round_trip
           (fetch_always (Return (response_ok (lines ["a@x.com"; "b@y.org"]))))
           test_client {| listId := int 7; maxResults := None |}
           (response_ok (lines ["a@x.com"; "b@y.org"]))
           "a@x.com" ["b@y.org"] eq_refl eq_refl eq_refl).
  repeat constructor.
Defined.

End AddressLinesWitness.

(** ** The tools of the agent *)

(* ================================================================== *)
(** * Properties of the agent *)

Section AgentExtras.
Import Js Filter Client Endpoints Agent Inputs.

(** The three flags as a configuration. *)
Lemma config_cases (P : McpServerConfig → Prop) :
  (∀ p w s, P {| allowUserPii := p; allowWrites := w; allowSends := s |}) →
  ∀ c, P c.
Proof. intros H [p w s]. apply H. Qed.

(** The server after [init], by the PII flag. *)
Lemma init_with_pii_off w s :
  init_with {| allowUserPii := false; allowWrites := w; allowSends := s |}
  = ["get_campaigns"; "get_campaign"; "get_campaign_metrics";
     "get_child_campaigns"; "get_templates"; "get_email_template";
     "get_sms_template"; "get_push_template"; "get_inapp_template";
     "get_template_by_client_id"; "get_user_fields"; "get_lists";
     "get_list_size"; "get_channels"; "get_message_types"; "get_journeys";
     "get_experiment_metrics"; "get_webhooks"; "get_snippets"; "get_snippet";
     "get_catalogs"; "get_catalog_items"; "get_catalog_item"].
Proof. destruct w, s; vm_compute; reflexivity. Qed.

Lemma init_with_pii_on w s :
  init_with {| allowUserPii := true; allowWrites := w; allowSends := s |}
  = ["get_campaigns"; "get_campaign"; "get_campaign_metrics";
     "get_child_campaigns"; "get_templates"; "get_email_template";
     "get_sms_template"; "get_push_template"; "get_inapp_template";
     "get_template_by_client_id"; "get_user_by_email"; "get_user_by_user_id";
     "get_user_fields"; "get_sent_messages"; "get_user_events_by_email";
     "get_user_events_by_user_id"; "get_lists"; "get_list_size";
     "get_list_users"; "get_channels"; "get_message_types"; "get_journeys";
     "get_experiment_metrics"; "get_webhooks"; "get_snippets"; "get_snippet";
     "get_catalogs"; "get_catalog_items"; "get_catalog_item"].
Proof. destruct w, s; vm_compute; reflexivity. Qed.

(** X13: every tool the agent registers is a read-only tool and no send
    tool, so the server after [init] is the same whatever the write flag
    and the send flag are; no name is registered twice. *)
Theorem init_registers_read_only (config : McpServerConfig) :
  (∀ n, In n (init_with config) →
        (n ∈ READ_ONLY_TOOLS) ∧ (n ∉ SEND_TOOLS)
        ∧ isToolAllowed n config = true)
  ∧ init_with config
    = init_with {| allowUserPii := allowUserPii config;
                   allowWrites := false; allowSends := false |}
  ∧ NoDup (init_with config).
Proof.
  revert config. apply config_cases. intros p w s. simpl.
  refine (conj _ (conj _ _)).
  - intros n Hin.
    assert (Hc : forallb
              (fun n => has READ_ONLY_TOOLS n && negb (has SEND_TOOLS n)
                        && isToolAllowed n
                             {| allowUserPii := p; allowWrites := w;
                                allowSends := s |})
              (init_with {| allowUserPii := p; allowWrites := w;
                            allowSends := s |}) = true)
      by (destruct p, w, s; vm_compute; reflexivity).
    apply (forallb_In _ _ n Hc) in Hin.
    apply andb_prop in Hin as [Hin Ha]. apply andb_prop in Hin as [Hr Hs].
    refine (conj _ (conj _ Ha)).
    + now apply has_true.
    + apply has_false. now destruct (has SEND_TOOLS n).
  - destruct p; [rewrite !init_with_pii_on | rewrite !init_with_pii_off];
      reflexivity.
  - destruct p; [rewrite init_with_pii_on | rewrite init_with_pii_off];
      apply (bool_decide_eq_true_1 _); vm_compute; reflexivity.
Qed.

(** [init] reads the PII flag as the exact string true. *)
Lemma init_by_flag (env : Worker.Env) :
  init env
  = init_with {| allowUserPii := String.eqb (Worker.ITERABLE_USER_PII env) "true";
                 allowWrites := false; allowSends := false |}.
Proof.
  unfold init, Worker.parseConfig.
  destruct (String.eqb (Worker.ITERABLE_USER_PII env) "true");
    [rewrite !init_with_pii_on | rewrite !init_with_pii_off]; reflexivity.
Qed.

(** X14: unless ITERABLE_USER_PII is exactly the string true, every tool
    of the server is on the non-PII list; when it is, every tool that has
    a handler is on the server. *)
Theorem init_pii_gate (env : Worker.Env) :
  (Worker.ITERABLE_USER_PII env ≠ "true" →
   ∀ n, In n (init env) → n ∈ NON_PII_TOOLS)
  ∧ (Worker.ITERABLE_USER_PII env = "true" →
     ∀ call, In (tool_name call) (init env)).
Proof.
  rewrite init_by_flag. split.
  - intros Hne n Hin.
    apply String.eqb_neq in Hne. rewrite Hne, init_with_pii_off in Hin.
    apply has_true.
    refine (forallb_In (has NON_PII_TOOLS) _ n _ Hin).
    vm_compute. reflexivity.
  - intros He call. rewrite He. simpl. rewrite init_with_pii_on.
    apply existsb_In. destruct call; reflexivity.
Qed.

Lemma init_pii_gate_witness :
  Worker.ITERABLE_USER_PII env_upper_case_flags ≠ "true"
  ∧ In "get_campaigns" (init env_upper_case_flags)
  ∧ "get_campaigns" ∈ NON_PII_TOOLS.
Proof.
  assert (Hne : Worker.ITERABLE_USER_PII env_upper_case_flags ≠ "true")
    by discriminate.
  assert (Hin : In "get_campaigns" (init env_upper_case_flags))
    by (apply existsb_In; vm_compute; reflexivity).
  exact (conj Hne (conj Hin
           (proj1 (init_pii_gate env_upper_case_flags) Hne _ Hin))).
Defined.

End AgentExtras.

(** ** The handlers of the tools *)

Section HandlerExtras.
Import Js Client Endpoints Agent.

Variables fetch fetch' : string → RequestInit → completion Response.

Lemma getSentMessages_path_api (params : GetSentMessagesParams) :
  ∃ x, getSentMessages_path params = "/api/" +:+ x.
Proof.
  unfold getSentMessages_path. destruct (nonempty _); eexists; reflexivity.
Qed.

(** One call of [request] with GET on a path under /api/ and without a
    body reads the network at such a URL, with the one [init]. *)
Ltac reads_api H :=
  apply request_ext; apply H; apply request_url_api.

(** X15: the handler of every tool reads the network only with GET,
    without a body, with the three headers of the client, at URLs that
    start with the base URL and /api/: two networks that agree there give
    the same result. *)
Theorem handle_reads_only (env : Worker.Env) (call : tool_call) :
  let client := Worker.getClient env in
  (∀ url, String.prefix (baseUrl client +:+ "/api/") url = true →
          fetch url (request_init client "GET" None)
          = fetch' url (request_init client "GET" None)) →
  handle fetch env call = handle fetch' env call.
Proof.
  intros client H.
  destruct call; unfold handle; fold client; f_equal;
    try (first [ unfold getCampaigns | unfold getCampaign
               | unfold getCampaignMetrics | unfold getChildCampaigns
               | unfold getTemplates | unfold getEmailTemplate
               | unfold getSMSTemplate | unfold getPushTemplate
               | unfold getInAppTemplate | unfold getTemplateByClientId
               | unfold getUserFields | unfold getUserEventsByEmail
               | unfold getUserEventsByUserId | unfold getLists
               | unfold getChannels | unfold getMessageTypes
               | unfold getJourneys | unfold getExperimentMetrics
               | unfold getWebhooks | unfold getSnippets | unfold getSnippet
               | unfold getCatalogs | unfold getCatalogItems
               | unfold getCatalogItem ];
         reads_api H).
  - unfold getUserByEmail.
    destruct (encodeURIComponent _); [reads_api H | reflexivity].
  - unfold getUserByUserId.
    destruct (encodeURIComponent _); [reads_api H | reflexivity].
  - unfold getSentMessages.
    destruct (getSentMessages_path_api params) as [x ->]. reads_api H.
  - unfold getListSize.
    rewrite (request_ext fetch fetch' client "GET" _ None); [reflexivity |].
    apply H. apply request_url_api.
  - unfold getListUsers.
    match goal with
    | |- context [request fetch client "GET" ?p ?o] =>
      rewrite (request_ext fetch fetch' client "GET" p o); [reflexivity |]
    end.
    apply H. apply request_url_api.
Qed.

Lemma text_result_outcome (wrap : jsvalue → content_text)
  (c : completion jsvalue) (P : thrown → Prop) :
  (∀ t, c = Throw t → P t) →
  match text_result wrap c with
  | Return r => ∃ txt, content r = [{| item_type := "text"; item_text := txt |}]
  | Throw t => P t
  end.
Proof. destruct c as [v | t]; simpl; intros H; eauto. Qed.

Lemma encodeURIComponent_throws (s : string) :
  encodeURIComponent s = None ↔ has_lone_surrogate s = true.
Proof.
  unfold encodeURIComponent. destruct (has_lone_surrogate s); split;
    (reflexivity || discriminate).
Qed.

(** X16: the handler of every tool either returns one content item of
    type text or throws.  What it throws is an [IterableApiError], but for
    two errors of built-ins that are thrown outside [request]: the
    [TypeError] of [parseInt], in get_list_size when the response was a
    value that cannot be converted to a string, and the [URIError] of
    [encodeURIComponent], in get_user_by_email and get_user_by_user_id
    when the argument has a lone surrogate; and on such an argument these
    two handlers do throw it, whatever the network. *)
Theorem handle_outcome (env : Worker.Env) (call : tool_call) :
  match handle fetch env call with
  | Return r => ∃ txt, content r = [{| item_type := "text"; item_text := txt |}]
  | Throw t =>
    (∃ e, t = ThrownApiError e)
    ∨ (t = TypeError_to_primitive
       ∧ ∃ listId v,
           call = get_list_size listId
           ∧ request fetch (Worker.getClient env) "GET"
               ("/api/lists/" +:+ Number_toString listId +:+ "/size") None
             = Return v
           ∧ ToString_throws v = true)
    ∨ (t = URIError_malformed
       ∧ ∃ s, (call = get_user_by_email s ∨ call = get_user_by_user_id s)
              ∧ has_lone_surrogate s = true)
  end
  ∧ (∀ s, has_lone_surrogate s = true →
          handle fetch env (get_user_by_email s) = Throw URIError_malformed
          ∧ handle fetch env (get_user_by_user_id s) = Throw URIError_malformed).
Proof.
  split.
  - destruct call; unfold handle;
      match goal with
      | |- match text_result ?w ?c with
           | Return r => _
           | Throw t => @?P t
           end => apply (text_result_outcome w c P)
      end; intros t Ht;
      try (left; first [ eapply getListUsers_throws, Ht
                       | eapply request_throws, Ht ]).
    + unfold getUserByEmail in Ht.
      match type of Ht with
      | context [encodeURIComponent ?s] =>
        destruct (encodeURIComponent s) eqn:He;
          [left; eapply request_throws, Ht |];
        injection Ht as <-; right; right; split; [reflexivity |];
        exists s; split; [now left | now apply encodeURIComponent_throws]
      end.
    + unfold getUserByUserId in Ht.
      match type of Ht with
      | context [encodeURIComponent ?s] =>
        destruct (encodeURIComponent s) eqn:He;
          [left; eapply request_throws, Ht |];
        injection Ht as <-; right; right; split; [reflexivity |];
        exists s; split; [now right | now apply encodeURIComponent_throws]
      end.
    + destruct (getListSize_throws _ _ _ _ Ht) as [He | (-> & v & Hr & Hv)];
        [now left |].
      right. left. split; [reflexivity |]. eexists _, v. eauto.
  - intros s Hs%encodeURIComponent_throws. unfold handle.
    unfold getUserByEmail, getUserByUserId. rewrite Hs. split; reflexivity.
Qed.

End HandlerExtras.

Section HandlerWitnesses.
Import Js Client Endpoints Agent Examples Inputs.

Lemma handle_reads_only_witness :
  handle (fetch_always (Return (response_ok body_campaigns)))
    env_with_default (get_user_by_email "a@x.com")
  = handle
      (fetch_guarded (baseUrl (Worker.getClient env_with_default))
         (fetch_always (Return (response_ok body_campaigns))))
      env_with_default (get_user_by_email "a@x.com").
Proof.
  apply (handle_reads_only
           (fetch_always (Return (response_ok body_campaigns)))
           (fetch_guarded (baseUrl (Worker.getClient env_with_default))
              (fetch_always (Return (response_ok body_campaigns))))
           env_with_default (get_user_by_email "a@x.com")).
  intros url Hp. unfold fetch_guarded. rewrite Hp. reflexivity.
Defined.

End HandlerWitnesses.

(** ** The routes of the worker *)

(* ================================================================== *)
(** * More properties of the worker entry point *)

Section WorkerExtras.
Import Js Worker Examples Inputs.

(** The three routes that need a key. *)
Lemma routes_cases (p : string) :
  (p = "/mcp" ∨ p = "/sse" ∨ p = "/sse/message")
  ∨ (String.eqb p "/mcp" = false ∧ String.eqb p "/sse" = false
     ∧ String.eqb p "/sse/message" = false).
Proof.
  destruct (String.eqb_spec p "/mcp"); [auto |].
  destruct (String.eqb_spec p "/sse"); [auto |].
  destruct (String.eqb_spec p "/sse/message"); auto.
Qed.

(** X17: [fetch] answers 401 exactly when no key resolves and the path
    is /mcp, /sse or /sse/message. *)
Theorem fetch_401_iff (request : Request) (env : Env) :
  (∃ r, fetch request env = Respond r ∧ status r = 401%Z)
  ↔ falsy (resolve_apiKey request env) = true
    ∧ (pathname (url request) = "/mcp" ∨ pathname (url request) = "/sse"
       ∨ pathname (url request) = "/sse/message").
Proof.
  unfold fetch.
  destruct (routes_cases (pathname (url request)))
    as [Hp | (H1 & H2 & H3)].
  - destruct (falsy (resolve_apiKey request env)) eqn:Hk.
    + split; [auto |]. intros _.
      destruct Hp as [-> | [-> | ->]]; simpl; eexists; split; reflexivity.
    + split; [| intros [? _]; discriminate].
      intros (r & Hr & Hs). exfalso.
      destruct Hp as [Hp | [Hp | Hp]]; rewrite Hp in Hr; simpl in Hr;
        discriminate Hr.
  - rewrite H1, H2, H3, andb_false_r. simpl. split.
    + intros (r & Hr & Hs). injection Hr as <-. discriminate Hs.
    + intros (_ & [Hp | [Hp | Hp]]); rewrite Hp in *; discriminate.
Qed.

(** X18: on every other path [fetch] answers 200 with the information
    document and the header that allows every origin, with or without a
    key. *)
Theorem fetch_info_elsewhere (request : Request) (env : Env) :
  pathname (url request) ≠ "/mcp" → pathname (url request) ≠ "/sse" →
  pathname (url request) ≠ "/sse/message" →
  ∃ r, fetch request env = Respond r ∧ status r = 200%Z
       ∧ In ("Access-Control-Allow-Origin", "*") (resp_headers r).
Proof.
  intros H1%String.eqb_neq H2%String.eqb_neq H3%String.eqb_neq.
  unfold fetch. rewrite H1, H2, H3, andb_false_r. simpl.
  eexists. refine (conj eq_refl (conj eq_refl _)). simpl. auto.
Qed.

Lemma fetch_info_elsewhere_witness :
  ∃ r, fetch request_root env_without_default = Respond r ∧ status r = 200%Z
       ∧ In ("Access-Control-Allow-Origin", "*") (resp_headers r).
Proof.
  apply (fetch_info_elsewhere request_root env_without_default); discriminate.
Defined.

(** X19: with a key, /mcp goes to the HTTP transport and /sse and
    /sse/message go to the SSE transport mounted at /sse, with the request
    as it came and the environment changed in the key only; so the
    configuration and the tools of the agent are those of the
    deployment. *)
Theorem fetch_routes (request : Request) (env : Env) :
  falsy (resolve_apiKey request env) = false →
  let envWithKey :=
    {| ITERABLE_API_KEY := resolve_apiKey request env;
       ITERABLE_API_BASE_URL := ITERABLE_API_BASE_URL env;
       ITERABLE_USER_PII := ITERABLE_USER_PII env;
       ITERABLE_ENABLE_WRITES := ITERABLE_ENABLE_WRITES env;
       ITERABLE_ENABLE_SENDS := ITERABLE_ENABLE_SENDS env |} in
  (pathname (url request) = "/mcp" →
   fetch request env = ServeMcp "/mcp" request envWithKey)
  ∧ (pathname (url request) = "/sse" ∨ pathname (url request) = "/sse/message" →
     fetch request env = ServeSSE "/sse" request envWithKey)
  ∧ parseConfig envWithKey = parseConfig env
  ∧ Agent.init envWithKey = Agent.init env.
Proof.
  intros Hk envWithKey. unfold fetch. rewrite Hk. simpl.
  refine (conj _ (conj _ (conj eq_refl eq_refl))).
  - intros ->. reflexivity.
  - intros [-> | ->]; reflexivity.
Qed.

Lemma fetch_routes_witness :
  fetch request_empty_query env_without_default
  = ServeMcp "/mcp" request_empty_query
      {| ITERABLE_API_KEY := Some "header-key";
         ITERABLE_API_BASE_URL := None;
         ITERABLE_USER_PII := "false";
         ITERABLE_ENABLE_WRITES := "false";
         ITERABLE_ENABLE_SENDS := "false" |}.
Proof.
  exact (proj1 (fetch_routes request_empty_query env_without_default eq_refl)
           eq_refl).
Defined.

(** X20: the responses [fetch] writes itself do not depend on the
    request or the environment beyond their status: no key, header or
    path comes back in them. *)
Theorem fetch_responses_fixed (request request' : Request) (env env' : Env)
  (r r' : Response) :
  fetch request env = Respond r → fetch request' env' = Respond r' →
  status r = status r' → r = r'.
Proof.
  unfold fetch.
  destruct (falsy (resolve_apiKey request env) && _),
    (falsy (resolve_apiKey request' env') && _);
    repeat match goal with
           | |- context [if ?b then _ else _] => destruct b
           end;
    intros H H'; try discriminate H; try discriminate H';
    injection H as <-; injection H' as <-; simpl; intros Hs;
    (reflexivity || discriminate Hs).
Qed.

Lemma fetch_responses_fixed_witness :
  ∃ r, fetch request_root_with_keys env_with_default = Respond r
       ∧ fetch request_root env_without_default = Respond r.
Proof.
  assert (H1 : ∃ r, fetch request_root_with_keys env_with_default = Respond r
                    ∧ status r = 200%Z)
    by (eexists; split; reflexivity).
  assert (H2 : ∃ r, fetch request_root env_without_default = Respond r
                    ∧ status r = 200%Z)
    by (eexists; split; reflexivity).
  destruct H1 as (r & H1 & Hs), H2 as (r' & H2 & Hs').
  exists r. split; [exact H1 |].
  rewrite (fetch_responses_fixed request_root_with_keys request_root
             env_with_default env_without_default r r' H1 H2); [exact H2 |].
  now rewrite Hs, Hs'.
Defined.

(** X21: the client of the agent always has a base URL, the one of the
    environment or else https://api.iterable.com; and when the environment
    has no key the client is made with the empty key. *)
Theorem getClient_defaults (env : Env) :
  nonempty (Client.baseUrl (getClient env)) = true
  ∧ (falsy (ITERABLE_API_BASE_URL env) = true →
     Client.baseUrl (getClient env) = "https://api.iterable.com")
  ∧ (∀ u, ITERABLE_API_BASE_URL env = Some u → nonempty u = true →
          Client.baseUrl (getClient env) = u)
  ∧ (falsy (ITERABLE_API_KEY env) = true → Client.apiKey (getClient env) = "").
Proof.
  unfold getClient, Client.new_IterableClient. simpl.
  refine (conj _ (conj _ (conj _ _))).
  - now destruct (ITERABLE_API_BASE_URL env) as [[|c u]|].
  - destruct (ITERABLE_API_BASE_URL env) as [[|c u]|]; simpl;
      intros H; (reflexivity || discriminate H).
  - intros u ->. destruct u; simpl; intros H; (reflexivity || discriminate H).
  - destruct (ITERABLE_API_KEY env) as [[|d k]|]; simpl;
      intros H; (reflexivity || discriminate H).
Qed.

End WorkerExtras.

(** ** Decimal numerals *)

(* ================================================================== *)
(** * Decimal digits: printing, reading and parsing agree *)

Section DigitStrings.
Import Js.

Lemma string_length_append (a b : string) :
  String.length (a +:+ b) = (String.length a + String.length b)%nat.
Proof.
  induction a as [|c a IH]; [reflexivity |].
  change (S (String.length (a +:+ b)) = S (String.length a + String.length b)).
  now rewrite IH.
Qed.

Lemma length_zeros (n : nat) : String.length (zeros n) = n.
Proof. induction n as [|n IH]; simpl; [reflexivity | now rewrite IH]. Qed.

Lemma zeros_snoc (n : nat) : zeros n +:+ "0" = zeros (S n).
Proof.
  induction n as [|n IH]; [reflexivity |].
  change (String "0" (zeros n +:+ "0") = String "0" (zeros (S n))).
  now rewrite IH.
Qed.

(** Printing a reversed list of digits. *)
Lemma string_of_revapp (d d' : Decimal.uint) :
  NilEmpty.string_of_uint (Decimal.revapp d d')
  = NilEmpty.string_of_uint (Decimal.revapp d Decimal.Nil)
    +:+ NilEmpty.string_of_uint d'.
Proof.
  revert d'. induction d as [|d IH|d IH|d IH|d IH|d IH|d IH|d IH|d IH|d IH|d IH];
    intros d'; [reflexivity | ..];
    cbn [Decimal.revapp]; rewrite IH; symmetry; rewrite IH;
    rewrite append_assoc; reflexivity.
Qed.

Lemma digits_tenfold (p : positive) : digits (10 * p) = digits p +:+ "0".
Proof.
  unfold digits, Pos.to_uint, Decimal.rev.
  pose proof (DecimalPos.Unsigned.to_ldec_tenfold p) as H.
  change (Pos.to_little_uint (10 * p) = Decimal.D0 (Pos.to_little_uint p)) in H.
  rewrite H. cbn [Decimal.revapp]. now rewrite string_of_revapp.
Qed.

Lemma digits_pow10 (n : nat) (p q : positive) :
  (Zpos p = Zpos q * 10 ^ Z.of_nat n)%Z → digits p = digits q +:+ zeros n.
Proof.
  revert p. induction n as [|n IH]; intros p H.
  - rewrite Z.pow_0_r, Z.mul_1_r in H. injection H as ->.
    now rewrite append_empty_r.
  - rewrite Nat2Z.inj_succ, Z.pow_succ_r in H by lia.
    assert (Hpos : (0 < Zpos q * 10 ^ Z.of_nat n)%Z)
      by (apply Z.mul_pos_pos; [lia | apply Z.pow_pos_nonneg; lia]).
    destruct (Zpos q * 10 ^ Z.of_nat n)%Z as [|r|r] eqn:Hr; try lia.
    assert (Hp : p = (10 * r)%positive) by lia. subst p.
    rewrite digits_tenfold, (IH r eq_refl), append_assoc, zeros_snoc.
    reflexivity.
Qed.

(** Reading what was printed. *)
Lemma read_digits_acc (d : Decimal.uint) (acc : positive) :
  fold_left (fun a c => (a * 10 + digit_val c)%Z)
    (list_ascii_of_string (NilEmpty.string_of_uint d)) (Zpos acc)
  = Zpos (Pos.of_uint_acc d acc).
Proof.
  revert acc.
  induction d as [|d IH|d IH|d IH|d IH|d IH|d IH|d IH|d IH|d IH|d IH];
    intros acc; [reflexivity | ..];
    cbn [NilEmpty.string_of_uint list_ascii_of_string fold_left Pos.of_uint_acc];
    rewrite <- IH; f_equal; unfold digit_val, code; simpl; lia.
Qed.

Lemma read_digits_0 (d : Decimal.uint) :
  fold_left (fun a c => (a * 10 + digit_val c)%Z)
    (list_ascii_of_string (NilEmpty.string_of_uint d)) 0%Z
  = Z.of_N (Pos.of_uint d).
Proof.
  induction d as [|d IH|d IH|d IH|d IH|d IH|d IH|d IH|d IH|d IH|d IH];
    [reflexivity | exact IH | ..];
    cbn [NilEmpty.string_of_uint list_ascii_of_string fold_left Pos.of_uint];
    apply read_digits_acc.
Qed.

Lemma digits_value_digits (p : positive) : digits_value (digits p) = Zpos p.
Proof.
  unfold digits_value, digits. rewrite read_digits_0.
  now rewrite DecimalPos.Unsigned.of_to.
Qed.

Lemma string_of_uint_digits (d : Decimal.uint) :
  forallb is_digit (list_ascii_of_string (NilEmpty.string_of_uint d)) = true.
Proof.
  induction d as [|d IH|d IH|d IH|d IH|d IH|d IH|d IH|d IH|d IH|d IH];
    [reflexivity | exact IH ..].
Qed.

Lemma leading_digits_all (s : string) :
  forallb is_digit (list_ascii_of_string s) = true → leading_digits s = s.
Proof.
  induction s as [|c s IH]; [reflexivity |].
  cbn [list_ascii_of_string forallb leading_digits].
  intros [Hc Hs]%andb_prop. now rewrite Hc, (IH Hs).
Qed.

(** The digits of a positive number start with a digit that is not 0. *)
Lemma to_uint_head (p : positive) :
  Pos.to_uint p ≠ Decimal.Nil ∧ ∀ d, Pos.to_uint p ≠ Decimal.D0 d.
Proof.
  split; [apply DecimalPos.Unsigned.to_uint_nonnil |].
  intros d Hd.
  assert (Hn : Decimal.unorm (Pos.to_uint p) = Pos.to_uint p).
  { rewrite <- (DecimalPos.Unsigned.to_of (Pos.to_uint p)).
    now rewrite DecimalPos.Unsigned.of_to. }
  assert (Hz : Decimal.nzhead (Pos.to_uint p) = Decimal.Nil
               ∨ Decimal.nzhead (Pos.to_uint p) ≠ Decimal.Nil)
    by (destruct (Decimal.nzhead (Pos.to_uint p)); [left | right ..]; congruence).
  destruct Hz as [Hz | Hz].
  - unfold Decimal.unorm in Hn. rewrite Hz in Hn.
    exact (DecimalPos.Unsigned.to_uint_nonzero p (eq_sym Hn)).
  - rewrite DecimalFacts.unorm_nzhead in Hn by exact Hz.
    rewrite Hd in Hn at 2. exact (DecimalFacts.nzhead_nonzero _ _ Hn).
Qed.

End DigitStrings.

Section DigitParsing.
Import Js.

(** The lexer inside the integer part of a number. *)
Lemma lex_int_digits (d : Decimal.uint) (acc : Z) (toks : list token) :
  lex_from (LNum NInt (num_start false acc), toks) (NilEmpty.string_of_uint d)
  = Some (LNum NInt
            (num_start false
               (fold_left (fun a c => (a * 10 + digit_val c)%Z)
                  (list_ascii_of_string (NilEmpty.string_of_uint d)) acc)),
          toks).
Proof.
  revert acc.
  induction d as [|d IH|d IH|d IH|d IH|d IH|d IH|d IH|d IH|d IH|d IH];
    intros acc; [reflexivity | ..]; exact (IH _).
Qed.

(** [JSON.parse] reads the decimal numeral of a positive integer as that
    integer. *)
Lemma JSON_parse_digits (p : positive) :
  JSON_parse (digits p) = Some (JNum (int (Zpos p))).
Proof.
  pose proof (digits_value_digits p) as Hv.
  destruct (to_uint_head p) as [Hnil H0].
  unfold digits_value, digits in Hv. unfold JSON_parse, lex, digits.
  destruct (Pos.to_uint p) as [|d|d|d|d|d|d|d|d|d|d];
    [contradiction | destruct (H0 d eq_refl) | ..];
    cbn [NilEmpty.string_of_uint lex_from];
    match goal with
    | |- context [lex_char (LIdle, []) ?c] =>
      change (lex_char (LIdle, []) c)
        with (Some (LNum NInt (num_start false (digit_val c)), @nil token))
    end;
    cbv iota; rewrite lex_int_digits;
    cbn [NilEmpty.string_of_uint list_ascii_of_string fold_left] in Hv;
    rewrite <- Hv; reflexivity.
Qed.

End DigitParsing.

Section DigitRoundTrip.
Import Js.

Lemma normalize_fixed (m e : Z) :
  m ≠ 0%Z → (m mod 10)%Z ≠ 0%Z → normalize m e = (m, e).
Proof.
  intros Hm Hmod. unfold normalize. cbn [strip_zeros].
  destruct (Z.eqb_spec m 0); [contradiction |].
  destruct (Z.eqb_spec (m mod 10) 0); [contradiction | reflexivity].
Qed.

(** An integer of at most 21 digits prints as its decimal numeral. *)
Lemma Number_toString_int (p : positive) :
  (String.length (digits p) ≤ 21)%nat →
  Number_toString (int (Zpos p)) = digits p.
Proof.
  intros Hlen. unfold int, mkNum.
  destruct (normalize_spec (Zpos p) 0) as (k & Hk & Hv & He & Hn).
  destruct (normalize (Zpos p) 0) as [m e] eqn:Hnorm. cbn [fst snd] in *.
  assert (Hpow : (0 < 10 ^ k)%Z) by (apply Z.pow_pos_nonneg; lia).
  destruct m as [|q|q]; [lia | | nia].
  rewrite He by discriminate. clear He.
  destruct Hn as [Hn | Hn]; [discriminate |].
  unfold Number_toString. rewrite normalize_fixed by (discriminate || exact Hn).
  assert (Hd : digits p = digits q +:+ zeros (Z.to_nat k)).
  { apply digits_pow10. now rewrite Z2Nat.id. }
  rewrite Hd, string_length_append, length_zeros in Hlen.
  unfold format_decimal.
  replace ((Z.of_nat (String.length (digits q))
            <=? Z.of_nat (String.length (digits q)) + (0 + k))
           && (Z.of_nat (String.length (digits q)) + (0 + k) <=? 21))%Z
    with true.
  - now rewrite Hd.
  - symmetry. apply andb_true_intro. split; apply Z.leb_le; lia.
Qed.

Lemma strip_ws_digit (c : ascii) (s : string) :
  is_digit c = true → strip_ws false (String c s) = String c s.
Proof.
  destruct c as [[] [] [] [] [] [] [] []]; try discriminate; intros _;
    destruct s as [|b [|c' r]]; reflexivity.
Qed.

(** [parseInt] reads a string of digits as its value. *)
Lemma parseInt10_digits (c : ascii) (s : string) :
  is_digit c = true → forallb is_digit (list_ascii_of_string s) = true →
  parseInt10 (String c s) = int (digits_value (String c s)).
Proof.
  intros Hc Hs. unfold parseInt10, trimStart.
  rewrite (strip_ws_digit c s Hc).
  assert (Hl : leading_digits (String c s) = String c s).
  { apply leading_digits_all. cbn [list_ascii_of_string forallb].
    now rewrite Hc, Hs. }
  destruct c as [[] [] [] [] [] [] [] []]; try discriminate Hc;
    cbv iota beta; rewrite Hl; reflexivity.
Qed.

Lemma parseInt10_numeral (p : positive) : parseInt10 (digits p) = int (Zpos p).
Proof.
  rewrite <- (digits_value_digits p).
  pose proof (string_of_uint_digits (Pos.to_uint p)) as Hd.
  destruct (to_uint_head p) as [Hnil _]. unfold digits in *.
  destruct (Pos.to_uint p); [contradiction | ..];
    cbn [NilEmpty.string_of_uint list_ascii_of_string forallb] in *;
    apply andb_prop in Hd as [Hc Hs]; now apply parseInt10_digits.
Qed.

Lemma digits_nonempty (p : positive) : nonempty (digits p) = true.
Proof.
  destruct (to_uint_head p) as [Hnil _]. unfold digits.
  destruct (Pos.to_uint p); [contradiction | reflexivity ..].
Qed.

End DigitRoundTrip.

Section ListSizeExtras.
Import Js Client Examples.

Variable fetch : string → RequestInit → completion Response.

(** X22: when the body of an ok response is the decimal numeral of a
    positive integer of at most 15 digits, [getListSize] returns that
    integer as the size. *)
Theorem getListSize_numeral (self : IterableClient) (listId : number)
  (response : Response) (n : positive) :
  fetch (request_url self ("/api/lists/" +:+ Number_toString listId +:+ "/size") None)
        (request_init self "GET" None) = Return response →
  ok response = true → text response = Return (digits n) →
  (String.length (digits n) ≤ 15)%nat →
  getListSize fetch self listId
  = Return (JObj {[ "size" := JNum (int (Zpos n)) ]}).
Proof.
  intros Hf Hok Ht Hlen. unfold getListSize.
  rewrite (request_ok _ _ _ _ _ _ _ Hf Hok Ht), JSON_parse_digits.
  rewrite digits_nonempty. unfold parseInt. cbn [ToString].
  rewrite Number_toString_int by lia. now rewrite parseInt10_numeral.
Qed.

End ListSizeExtras.

Section ListSizeWitness.
Import Js Client Examples.

Lemma getListSize_numeral_witness :
  getListSize (fetch_always (Return (response_ok "250000"))) test_client (int 7)
  = Return (JObj {[ "size" := JNum (int 250000) ]}).
Proof.
  apply (getListSize_numeral
           (fetch_always (Return (response_ok "250000"))) test_client (int 7)
           (response_ok "250000") 250000%positive eq_refl eq_refl eq_refl).
  vm_compute. lia.
Defined.

End ListSizeWitness.
